(** * CellNet: permutation-based significance of cell-cell interactions

    A shallow embedding of
    [cellphonedb/src/core/methods/cpdb_statistical_analysis_helper.py]
    and the properties of its statistical core.

    Conventions of the embedding.
    - A binary64 value is an extended rational: [NaN], the two infinities
      or a finite rational.  Comparisons, NaN and infinity follow IEEE 754
      as numpy applies it (no exception is raised by float arithmetic);
      rounding and the sign of zero are not modelled.  Finite results are
      kept in lowest terms.
    - A Python exception is an [exn]; code that may raise returns a
      [result].
    - A pandas [DataFrame] is an index, a list of columns and a finite map
      of its cells; a cell that was never written reads as NaN, as in a
      frame created with [dtype=float].
    - pandas is the 0.23 series pinned in [setup.py]. *)

From stdpp Require Import gmap strings list fin_maps sorting.
From Stdlib Require Import QArith Qround Permutation Ascii Lqa.

Local Open Scope Z_scope.

(** ** Floating-point values *)

Inductive npfloat : Type :=
| NaN
| NInf
| PInf
| Fin (q : Q).

Definition isnan (x : npfloat) : bool :=
  match x with NaN => true | _ => false end.

(** [x < y]; every comparison with NaN is false. *)
Definition flt (x y : npfloat) : bool :=
  match x, y with
  | NaN, _ | _, NaN => false
  | NInf, NInf => false
  | NInf, _ => true
  | _, NInf => false
  | PInf, _ => false
  | Fin _, PInf => true
  | Fin a, Fin b => negb (Qle_bool b a)
  end.

Definition fgt (x y : npfloat) : bool := flt y x.

(** [x <= y]. *)
Definition fle (x y : npfloat) : bool :=
  match x, y with
  | NaN, _ | _, NaN => false
  | NInf, _ => true
  | _, PInf => true
  | PInf, _ => false
  | Fin _, NInf => false
  | Fin a, Fin b => Qle_bool a b
  end.

(** [x == y]. *)
Definition feq (x y : npfloat) : bool :=
  match x, y with
  | NInf, NInf | PInf, PInf => true
  | Fin a, Fin b => Qeq_bool a b
  | _, _ => false
  end.

Definition fin (q : Q) : npfloat := Fin (Qred q).

Definition fadd (x y : npfloat) : npfloat :=
  match x, y with
  | NaN, _ | _, NaN => NaN
  | PInf, NInf | NInf, PInf => NaN
  | PInf, _ | _, PInf => PInf
  | NInf, _ | _, NInf => NInf
  | Fin a, Fin b => fin (a + b)
  end.

Definition fneg (x : npfloat) : npfloat :=
  match x with
  | NaN => NaN
  | PInf => NInf
  | NInf => PInf
  | Fin a => fin (- a)
  end.

(** The sign of a rational: [Lt], [Eq] or [Gt] against zero. *)
Definition Qsign (a : Q) : comparison := (Qnum a ?= 0)%Z.

Definition fmul (x y : npfloat) : npfloat :=
  match x, y with
  | NaN, _ | _, NaN => NaN
  | Fin a, Fin b => fin (a * b)
  | Fin a, i | i, Fin a =>
      match Qsign a with
      | Eq => NaN
      | Gt => i
      | Lt => fneg i
      end
  | PInf, PInf | NInf, NInf => PInf
  | PInf, NInf | NInf, PInf => NInf
  end.

(** numpy's float division: a zero divisor gives an infinity or NaN and a
    warning, never an exception. *)
Definition fdiv (x y : npfloat) : npfloat :=
  match x, y with
  | NaN, _ | _, NaN => NaN
  | Fin a, Fin b =>
      match Qsign b with
      | Eq => match Qsign a with Eq => NaN | Gt => PInf | Lt => NInf end
      | _ => fin (a / b)
      end
  | Fin _, _ => Fin 0
  | i, Fin b => match Qsign b with Lt => fneg i | _ => i end
  | _, _ => NaN
  end.

(** Values are compared as numbers, not as fractions. *)
Definition feqv (x y : npfloat) : Prop :=
  match x, y with
  | NaN, NaN | NInf, NInf | PInf, PInf => True
  | Fin a, Fin b => (a == b)%Q
  | _, _ => False
  end.

Infix "≃" := feqv (at level 70, no associativity).

(** ** Exceptions *)

Inductive exn : Type :=
| KeyError
| ZeroDivisionError
| UnboundLocalError
| ValueError
| OverflowError.

Inductive result (A : Type) : Type :=
| Ok (a : A)
| Raise (e : exn).

Arguments Ok {A} a.
Arguments Raise {A} e.

Definition rbind {A B : Type} (m : result A) (k : A → result B) : result B :=
  match m with
  | Ok a => k a
  | Raise e => Raise e
  end.

Notation "'do' x <- m ; k" := (rbind m (λ x, k))
  (at level 10, x name, m at level 100, k at level 200,
   format "'[v' 'do'  x  <-  m ; '/' k ']'").

Fixpoint mapM {A B : Type} (f : A → result B) (l : list A) : result (list B) :=
  match l with
  | [] => Ok []
  | x :: l' => do y <- f x; do ys <- mapM f l'; Ok (y :: ys)
  end.

(** A [for] loop over [l] whose body updates the locals [s] or raises. *)
Fixpoint for_each {A S : Type} (l : list A) (body : S → A → result S) (s : S)
  : result S :=
  match l with
  | [] => Ok s
  | x :: l' => do s' <- body s x; for_each l' body s'
  end.

Definition is_ok {A : Type} (r : result A) : bool :=
  match r with
  | Ok _ => true
  | Raise _ => false
  end.

(** ** Python scalars *)

Definition Qtrunc (q : Q) : Z := Z.quot (Qnum q) (Z.pos (Qden q)).

(** [int(x)] on a float: truncation toward zero. *)
Definition py_int (x : npfloat) : result Z :=
  match x with
  | NaN => Raise ValueError
  | PInf | NInf => Raise OverflowError
  | Fin q => Ok (Qtrunc q)
  end.

Definition of_nat (n : nat) : Q := inject_Z (Z.of_nat n).

(** [a / b] on two Python ints. *)
Definition py_truediv (a b : nat) : result npfloat :=
  match b with
  | O => Raise ZeroDivisionError
  | S _ => Ok (fin (of_nat a / of_nat b))
  end.

(** Reading a local variable that may not have been assigned yet. *)
Definition load_local {A : Type} (v : option A) : result A :=
  match v with
  | Some a => Ok a
  | None => Raise UnboundLocalError
  end.

(** ** Data frames *)

Section Frames.
Context {R : Type} `{Countable R}.

(** Rows are labelled by [R] (an interaction index or a gene), columns by
    strings (a cluster pair or a cell). *)
Record Frame : Type := mkFrame {
  df_index : list R;
  df_columns : list string;
  df_values : gmap (R * string) npfloat
}.

Definition has_cell (df : Frame) (i : R) (c : string) : bool :=
  bool_decide (i ∈ df_index df) && bool_decide (c ∈ df_columns df).

(** [df.at[i, c]]. *)
Definition at_get (df : Frame) (i : R) (c : string) : result npfloat :=
  if has_cell df i c then Ok (default NaN (df_values df !! (i, c)))
  else Raise KeyError.

Definition add_label {A : Type} `{EqDecision A} (x : A) (l : list A) : list A :=
  if bool_decide (x ∈ l) then l else l ++ [x].

(** [df.at[i, c] = v]; a label that is not there yet enlarges the frame. *)
Definition at_set (df : Frame) (i : R) (c : string) (v : npfloat) : Frame :=
  {| df_index := add_label i (df_index df);
     df_columns := add_label c (df_columns df);
     df_values := <[(i, c) := v]> (df_values df) |}.

(** [pd.DataFrame(index=index, columns=columns, dtype=float)]. *)
Definition empty_frame (index : list R) (columns : list string) : Frame :=
  {| df_index := index; df_columns := columns; df_values := ∅ |}.
End Frames.

Arguments Frame R {_ _}.

(** ** Interactions and cluster pairs *)

Record Interaction : Type := mkInteraction {
  interaction_index : nat;
  ensembl_1 : string;
  ensembl_2 : string
}.

(** ['{}_{}'.format(cluster_interaction[0], cluster_interaction[1])]. *)
Definition cluster_interaction_string (ci : string * string) : string :=
  (ci.1 +:+ "_" +:+ ci.2)%string.

(** [build_result_matrix]. *)
Definition build_result_matrix (interactions : list Interaction)
    (cluster_interactions : list (string * string)) : Frame nat :=
  empty_frame (interaction_index <$> interactions)
              (cluster_interaction_string <$> cluster_interactions).

(** ** [build_percent_result] *)

(** The locals that live across the iterations of the two loops. *)
Record pr_locals : Type := mkLocals {
  percent_result : Frame nat;
  result_percent : option npfloat
}.

Definition not_nan (l : list npfloat) : list npfloat :=
  List.filter (λ x, negb (isnan x)) l.

Definition bigger_than (m : npfloat) (l : list npfloat) : list npfloat :=
  List.filter (λ x, fgt x m) l.

Definition smaller_than (m : npfloat) (l : list npfloat) : list npfloat :=
  List.filter (λ x, flt x m) l.

(** The [else] branch: the value bound to [result_percent] when it ends. *)
Definition tail_fraction (real_mean : npfloat) (means : list npfloat)
    (prev : option npfloat) : result (option npfloat) :=
  let mean_per_pair := not_nan means in
  if fgt real_mean (Fin 0) then
    let shuffled_bigger_smaller := length (bigger_than real_mean mean_per_pair) in
    do r <- py_truediv shuffled_bigger_smaller (length mean_per_pair);
    Ok (Some (fmul r (Fin 2)))
  else if flt real_mean (Fin 0) then
    let shuffled_bigger_smaller := length (smaller_than real_mean mean_per_pair) in
    do r <- py_truediv shuffled_bigger_smaller (length mean_per_pair);
    Ok (Some (fmul r (Fin 2)))
  else Ok prev.

(** The shuffled means of one cell, one per permutation. *)
Definition shuffled_means (statistical_mean_analysis : list (Frame nat)) (i : nat)
    (c : string) : result (list npfloat) :=
  mapM (λ statistical_mean, at_get statistical_mean i c) statistical_mean_analysis.

(** The statements of the inner loop up to the write: the value bound to
    [result_percent] after them, given the one bound before. *)
Definition result_percent_at (real_mean_analysis real_perecents_analysis : Frame nat)
    (statistical_mean_analysis : list (Frame nat)) (prev : option npfloat)
    (i : nat) (c : string) : result (option npfloat) :=
  do real_mean <- at_get real_mean_analysis i c;
  do real_percent <- at_get real_perecents_analysis i c;
  do flag <- py_int real_percent;
  if (flag =? 0) || feq real_mean (Fin 0) then Ok (Some (Fin 1))
  else
    do mean_per_pair <- shuffled_means statistical_mean_analysis i c;
    tail_fraction real_mean mean_per_pair prev.

(** The body of the inner loop. *)
Definition percent_cell (real_mean_analysis real_perecents_analysis : Frame nat)
    (statistical_mean_analysis : list (Frame nat)) (interaction : Interaction)
    (st : pr_locals) (cluster_interaction : string * string) : result pr_locals :=
  let i := interaction_index interaction in
  let c := cluster_interaction_string cluster_interaction in
  do rp <- result_percent_at real_mean_analysis real_perecents_analysis
             statistical_mean_analysis (result_percent st) i c;
  do v <- load_local rp;
  Ok {| percent_result := at_set (percent_result st) i c v;
        result_percent := rp |}.

Definition percent_loop (real_mean_analysis real_perecents_analysis : Frame nat)
    (statistical_mean_analysis : list (Frame nat))
    (interactions : list Interaction)
    (cluster_interactions : list (string * string)) (st : pr_locals)
  : result pr_locals :=
  for_each interactions
    (λ st interaction,
       for_each cluster_interactions
         (percent_cell real_mean_analysis real_perecents_analysis
            statistical_mean_analysis interaction) st) st.

Definition build_percent_result (real_mean_analysis real_perecents_analysis : Frame nat)
    (statistical_mean_analysis : list (Frame nat))
    (interactions : list Interaction)
    (cluster_interactions : list (string * string))
    (base_result : Frame nat) : result (Frame nat) :=
  do st <- percent_loop real_mean_analysis real_perecents_analysis
             statistical_mean_analysis interactions cluster_interactions
             {| percent_result := base_result; result_percent := None |};
  Ok (percent_result st).

(** A frame written out row by row, for the examples. *)
Definition frame_of_rows {R : Type} `{Countable R} (index : list R)
    (columns : list string) (rows : list (list npfloat)) : Frame R :=
  {| df_index := index;
     df_columns := columns;
     df_values :=
       list_to_map
         (mjoin (zip_with (λ i row, zip_with (λ c v, ((i, c), v)) columns row)
                          index rows)) |}.

(** ** [get_significant_means] *)

(** The cutoff [min_significant_mean = 0.05]. *)
Definition min_significant_mean : npfloat := Fin (1 # 20).

(** The body of the inner loop, at the cell [(index, cluster_interaction)]. *)
Definition significant_cell (result_percent : Frame nat) (significant_means : Frame nat)
    (cl : nat * string) : result (Frame nat) :=
  do p <- at_get result_percent cl.1 cl.2;
  Ok (if fgt p min_significant_mean
      then at_set significant_means cl.1 cl.2 NaN
      else significant_means).

Definition get_significant_means (real_mean_analysis result_percent : Frame nat)
  : result (Frame nat) :=
  for_each (df_index real_mean_analysis)
    (λ significant_means index,
       for_each (df_columns result_percent)
         (λ significant_means cluster_interaction,
            significant_cell result_percent significant_means
              (index, cluster_interaction))
         significant_means)
    real_mean_analysis.

(** ** [cluster_interaction_mean] and [mean_analysis] *)

(** A pandas [Series] indexed by gene. *)
Abbreviation Series := (gmap string npfloat).

Definition dict_get {K V : Type} `{Countable K} (d : gmap K V) (k : K) : result V :=
  match d !! k with
  | Some v => Ok v
  | None => Raise KeyError
  end.

Definition cluster_interaction_mean (cluster_interaction : string * string)
    (interaction : Interaction) (clusters_means : gmap string Series)
  : result npfloat :=
  do means_cluster_receptors <- dict_get clusters_means cluster_interaction.1;
  do means_cluster_ligands <- dict_get clusters_means cluster_interaction.2;
  do mean_receptor <- dict_get means_cluster_receptors (ensembl_1 interaction);
  do mean_ligand <- dict_get means_cluster_ligands (ensembl_2 interaction);
  Ok (fdiv (fadd mean_receptor mean_ligand) (Fin 2)).

(** The body of the inner loop of [mean_analysis]. *)
Definition mean_cell (clusters_means : gmap string Series) (res : Frame nat)
    (cl : Interaction * (string * string)) : result (Frame nat) :=
  do interaction_mean <- cluster_interaction_mean cl.2 cl.1 clusters_means;
  Ok (at_set res (interaction_index cl.1) (cluster_interaction_string cl.2)
        interaction_mean).

Definition mean_analysis (interactions : list Interaction)
    (clusters_means : gmap string Series)
    (cluster_interactions : list (string * string)) (base_result : Frame nat)
  : result (Frame nat) :=
  for_each interactions
    (λ res interaction,
       for_each cluster_interactions
         (λ res cluster_interaction,
            mean_cell clusters_means res (interaction, cluster_interaction))
         res)
    base_result.

(** ** Cell metadata and [shuffle_meta] *)

Record MetaRow : Type := mkMeta {
  cell : string;
  cell_type : string;
  group : string
}.

(** [meta] is a frame indexed by cell with the two columns ['cell_type'] and
    ['group']; it is kept as its rows, in order. *)
Abbreviation Meta := (list MetaRow).

Definition set_cell_type (r : MetaRow) (ct : string) : MetaRow :=
  {| cell := cell r; cell_type := ct; group := group r |}.

(** Assigning a whole ['cell_type'] column. *)
Definition with_cell_types (m : Meta) (cts : list string) : Meta :=
  zip_with set_cell_type m cts.

(** [x[i], x[j] = x[j], x[i]]: both reads come before the two writes. *)
Definition swap {A : Type} (x : list A) (i j : nat) : option (list A) :=
  xj ← x !! j; xi ← x !! i; Some (<[j := xi]> (<[i := xj]> x)).

Section Shuffle.
(** The state of numpy's process-wide generator and its [rk_interval],
    which draws from [0 .. max]; the generator itself is outside the
    repository. *)
Variable rng : Type.
Variable rk_interval : nat → rng → nat * rng.

(** The loop of [numpy.random.shuffle] on a sequence that is not an
    array: [for i in reversed(range(1, n))], with [i = S k]. *)
Fixpoint shuffle_from {A : Type} (k : nat) (x : list A) (g : rng)
  : option (list A * rng) :=
  match k with
  | O => Some (x, g)
  | S k' =>
      let '(j, g') := rk_interval k g in
      x' ← swap x k j; shuffle_from k' x' g'
  end.

Definition np_random_shuffle {A : Type} (x : list A) (g : rng)
  : option (list A * rng) :=
  shuffle_from (length x - 1) x g.

(** The objects in memory, by address, and the generator. *)
Record world : Type := mkWorld {
  frames : gmap nat Meta;
  random_state : rng
}.

Definition alloc (m : Meta) (w : world) : nat * world :=
  let l := fresh (dom (frames w)) in
  (l, {| frames := <[l := m]> (frames w); random_state := random_state w |}).

(** [meta] is the address of the caller's frame.  The copy is a new
    object; the shuffle then works in place on the copy's column.
    [None] stands for an [IndexError] inside the shuffle or for an
    address that holds no object. *)
Definition shuffle_meta (meta : nat) (w : world) : option (nat * world) :=
  m ← frames w !! meta;
  let '(meta_copy, w1) := alloc m w in
  '(column, g) ← np_random_shuffle (cell_type <$> m) (random_state w1);
  Some (meta_copy,
        {| frames := alter (λ mc, with_cell_types mc column) meta_copy (frames w1);
           random_state := g |}).
End Shuffle.

Arguments frames {rng} w.
Arguments random_state {rng} w.
Arguments mkWorld {rng} _ _.

(** ** [build_clusters] *)

(** [Series.drop_duplicates().tolist()]: the first occurrence of each
    label, in order. *)
Fixpoint drop_duplicates_from (seen l : list string) : list string :=
  match l with
  | [] => []
  | x :: l' =>
      if bool_decide (x ∈ seen) then drop_duplicates_from seen l'
      else x :: drop_duplicates_from (x :: seen) l'
  end.

Definition drop_duplicates (l : list string) : list string :=
  drop_duplicates_from [] l.

(** [meta[(meta['cell_type'] == c) & (meta['group'] == g)].index]. *)
Definition cells_of (meta : Meta) (cluster_name group_name : string) : list string :=
  cell <$> List.filter
    (λ r, bool_decide (cell_type r = cluster_name) && bool_decide (group r = group_name))
    meta.

Definition select_columns (counts : Frame string) (cells : list string)
  : Frame string :=
  {| df_index := df_index counts;
     df_columns := cells;
     df_values := filter (λ kv, kv.1.2 ∈ cells) (df_values counts) |}.

(** [counts.loc[:, cells]] in pandas 0.23: a [KeyError] when none of the
    labels is a column; a label that is missing next to one that is found
    comes back as a column of NaN (with a warning). *)
Definition loc_columns (counts : Frame string) (cells : list string)
  : result (Frame string) :=
  if negb (bool_decide (cells = [])) &&
     forallb (λ c, negb (bool_decide (c ∈ df_columns counts))) cells
  then Raise KeyError
  else Ok (select_columns counts cells).

Definition row_values (df : Frame string) (gene : string) : list npfloat :=
  (λ c, default NaN (df_values df !! (gene, c))) <$> df_columns df.

Definition fsum (l : list npfloat) : npfloat := foldl fadd (Fin 0) l.

(** [Series.mean()]: NaN entries are skipped, and the mean of nothing is
    NaN. *)
Definition series_mean (values : list npfloat) : npfloat :=
  let valid := not_nan values in
  match length valid with
  | O => NaN
  | S _ => fdiv (fsum valid) (Fin (of_nat (length valid)))
  end.

(** [cluster_count.apply(lambda count: count.mean(), axis=1)]. *)
Definition row_means (cluster_count : Frame string) : Series :=
  list_to_map ((λ gene, (gene, series_mean (row_values cluster_count gene)))
                 <$> df_index cluster_count).

(** Division of two Series over the same index. *)
Definition series_div (a b : Series) : Series := map_zip_with fdiv a b.

Record Clusters : Type := mkClusters {
  names : list string;
  groups : list string;
  counts_of : gmap (string * string) (Frame string);
  means : gmap string Series
}.

(** The three dictionaries filled by the loops of [build_clusters]. *)
Record bc_locals : Type := mkBc {
  cluster_counts : gmap (string * string) (Frame string);
  cluster_means : gmap (string * string) Series;
  cluster_de_means : gmap string Series
}.

Section Log2.
(** The binary logarithm of a positive rational, as the platform rounds
    it. *)
Variable log2_pos : Q → Q.

(** [np.log2]: a warning, never an exception. *)
Definition np_log2 (x : npfloat) : npfloat :=
  match x with
  | NaN | NInf => NaN
  | PInf => PInf
  | Fin q =>
      match Qsign q with
      | Lt => NaN
      | Eq => NInf
      | Gt => fin (log2_pos q)
      end
  end.

Definition group_step (meta : Meta) (counts : Frame string) (cluster_name : string)
    (st : bc_locals) (group_name : string) : result bc_locals :=
  let cells := cells_of meta cluster_name group_name in
  do cluster_count <- loc_columns counts cells;
  Ok {| cluster_counts := <[(cluster_name, group_name) := cluster_count]> (cluster_counts st);
        cluster_means :=
          <[(cluster_name, group_name) := row_means cluster_count]> (cluster_means st);
        cluster_de_means := cluster_de_means st |}.

Definition cluster_step (meta : Meta) (counts : Frame string)
    (group_names : list string) (st : bc_locals) (cluster_name : string)
  : result bc_locals :=
  do st <- for_each group_names (group_step meta counts cluster_name) st;
  do tumor <- dict_get (cluster_means st) (cluster_name, "tumor"%string);
  do normal <- dict_get (cluster_means st) (cluster_name, "normal"%string);
  Ok {| cluster_counts := cluster_counts st;
        cluster_means := cluster_means st;
        cluster_de_means :=
          <[cluster_name := np_log2 <$> series_div tumor normal]> (cluster_de_means st) |}.

Definition build_clusters (meta : Meta) (counts : Frame string) : result Clusters :=
  let cluster_names := drop_duplicates (cell_type <$> meta) in
  let group_names := drop_duplicates (group <$> meta) in
  do st <- for_each cluster_names (cluster_step meta counts group_names)
             {| cluster_counts := ∅; cluster_means := ∅; cluster_de_means := ∅ |};
  Ok {| names := cluster_names;
        groups := group_names;
        counts_of := cluster_counts st;
        means := cluster_de_means st |}.
End Log2.

(** ** [counts_percent], [cluster_interaction_percent], [percent_analysis] *)

(** What [counts_percent] asks of its argument: [len(counts)] and
    [counts[counts > 0]].  A Series and a DataFrame both answer. *)
Class Counts (A : Type) : Type := {
  py_len : A → nat;
  positive_part : A → A
}.

(** On a Series the mask keeps the positive entries. *)
#[export] Instance series_counts : Counts (list npfloat) := {
  py_len := length;
  positive_part := List.filter (λ x, fgt x (Fin 0))
}.

(** On a DataFrame [len] is the number of rows, and the mask blanks the
    other entries to NaN without changing the shape. *)
#[export] Instance frame_counts : Counts (Frame string) := {
  py_len := λ df, length (df_index df);
  positive_part := λ df,
    {| df_index := df_index df;
       df_columns := df_columns df;
       df_values := filter (λ kv, fgt kv.2 (Fin 0) = true) (df_values df) |}
}.

Definition counts_percent {A : Type} `{Counts A} (counts : A) (threshold : npfloat)
  : result Z :=
  let total := py_len counts in
  let positive := py_len (positive_part counts) in
  do fraction <- py_truediv positive total;
  Ok (if flt fraction threshold then 1 else 0).

(** What a cell of a percent Series can hold. *)
Inductive flagval : Type :=
| PyInt (z : Z)
| PyBool (b : bool)
| PyNaN.

Definition truthy (v : flagval) : bool :=
  match v with
  | PyInt z => negb (z =? 0)
  | PyBool b => b
  | PyNaN => true
  end.

(** [a & b] on two Series: the bitwise and of two integer columns; when a
    column is a float column of NaN the result is filled with [False]. *)
Definition flag_and (a b : flagval) : flagval :=
  match a, b with
  | PyInt x, PyInt y => PyInt (Z.land x y)
  | PyBool x, PyBool y => PyBool (x && y)
  | _, _ => PyBool false
  end.

(** [counts.apply(lambda count: counts_percent(counts, threshold), axis=1)]:
    the function is given the whole frame [counts], not the row [count].
    A frame without rows comes back as it is (nothing to look up); on a
    frame without columns the function is tried once and a Series of NaN
    is returned; otherwise it is called once per row. *)
Definition percent_rows (counts : Frame string) (threshold : npfloat)
  : result (gmap string flagval) :=
  match df_index counts, df_columns counts with
  | [], _ => Ok ∅
  | genes, [] => Ok (list_to_map ((λ gene, (gene, PyNaN)) <$> genes))
  | genes, _ =>
      do flags <- mapM (λ gene, do flag <- counts_percent counts threshold;
                                Ok (gene, PyInt flag)) genes;
      Ok (list_to_map flags)
  end.

Definition cluster_interaction_percent (cluster_interaction : string * string)
    (interaction : Interaction) (clusters_percents : gmap string (gmap string flagval))
  : result Z :=
  do percent_cluster_receptors <- dict_get clusters_percents cluster_interaction.1;
  do percent_cluster_ligands <- dict_get clusters_percents cluster_interaction.2;
  do percent_receptor <- dict_get percent_cluster_receptors (ensembl_1 interaction);
  do percent_ligand <- dict_get percent_cluster_ligands (ensembl_2 interaction);
  Ok (if truthy percent_receptor || truthy percent_ligand then 0 else 1).

(** The first loop of [percent_analysis]. *)
Definition percents_step (clusters : Clusters) (threshold : npfloat)
    (percents : gmap string (gmap string flagval)) (cluster_name : string)
  : result (gmap string (gmap string flagval)) :=
  do counts_tumor <- dict_get (counts_of clusters) (cluster_name, "tumor"%string);
  do counts_normal <- dict_get (counts_of clusters) (cluster_name, "normal"%string);
  do percent_tumor <- percent_rows counts_tumor threshold;
  do percent_normal <- percent_rows counts_normal threshold;
  Ok (<[cluster_name := map_zip_with flag_and percent_tumor percent_normal]> percents).

Definition percent_analysis (clusters : Clusters) (threshold : npfloat)
    (interactions : list Interaction) (cluster_interactions : list (string * string))
    (base_result : Frame nat) : result (Frame nat) :=
  do percents <- for_each (names clusters) (percents_step clusters threshold) ∅;
  for_each interactions
    (λ res interaction,
       for_each cluster_interactions
         (λ res cluster_interaction,
            do interaction_percent <-
              cluster_interaction_percent cluster_interaction interaction percents;
            Ok (at_set res (interaction_index interaction)
                  (cluster_interaction_string cluster_interaction)
                  (Fin (inject_Z interaction_percent))))
         res)
    base_result.

(** ** Cells of a result table *)

(** The cells in the order in which the two nested loops visit them. *)
Definition all_cells (interactions : list Interaction)
    (cluster_interactions : list (string * string))
  : list (Interaction * (string * string)) :=
  interaction ← interactions; pair interaction <$> cluster_interactions.

Definition cell_key (cl : Interaction * (string * string)) : nat * string :=
  (interaction_index cl.1, cluster_interaction_string cl.2).



(** ** Entries of the cluster dictionaries, and examples *)

(** The entry of [cluster_counts] and of [cluster_means] for a cluster and
    a group. *)
Definition counts_entry (meta : Meta) (counts : Frame string) (k : string * string)
  : Frame string :=
  select_columns counts (cells_of meta k.1 k.2).

(** The differential mean of a cluster: [log2 (tumor / normal)] over the
    two entries of [cluster_means]. *)
Definition de_entry (log2_pos : Q → Q) (meta : Meta) (counts : Frame string)
    (cluster_name : string) : Series :=
  np_log2 log2_pos <$>
    series_div (row_means (counts_entry meta counts (cluster_name, "tumor"%string)))
               (row_means (counts_entry meta counts (cluster_name, "normal"%string))).

(** The three dictionaries once the clusters [done] went through the outer
    loop. *)
Definition bc_inv (log2_pos : Q → Q) (meta : Meta) (counts : Frame string)
    (group_names done : list string) (st : bc_locals) : Prop :=
  (∀ k, cluster_means st !! k =
          if bool_decide (k.1 ∈ done ∧ k.2 ∈ group_names)
          then Some (row_means (counts_entry meta counts k)) else None) ∧
  (∀ k, cluster_counts st !! k =
          if bool_decide (k.1 ∈ done ∧ k.2 ∈ group_names)
          then Some (counts_entry meta counts k) else None) ∧
  (∀ c, cluster_de_means st !! c =
          if bool_decide (c ∈ done)
          then Some (de_entry log2_pos meta counts c) else None).

Definition log2_approx (q : Q) : Q :=
  inject_Z (Z.log2 (Qnum q) - Z.log2 (Z.pos (Qden q))).

Definition ex_meta : Meta :=
  [mkMeta "cell1" "A" "tumor"; mkMeta "cell2" "A" "normal"; mkMeta "cell3" "B" "tumor"]%string.

Definition ex_counts : Frame string :=
  frame_of_rows ["g1"; "g2"]%string ["cell1"; "cell2"; "cell3"]%string
    [[Fin 1; Fin 0; Fin 2]; [Fin 0; Fin 4; Fin 0]].

Definition ex_meta3 : Meta :=
  [mkMeta "cell1" "A" "tumor"; mkMeta "cell2" "A" "normal";
   mkMeta "cell3" "A" "control"]%string.

Definition ex_silent_meta : Meta :=
  [mkMeta "cell1" "A" "tumor"; mkMeta "cell2" "A" "tumor";
   mkMeta "cell3" "A" "normal"; mkMeta "cell4" "A" "normal"]%string.

Definition ex_silent_counts : Frame string :=
  frame_of_rows ["g1"; "g2"]%string ["cell1"; "cell2"; "cell3"; "cell4"]%string
    [[Fin 0; Fin 0; Fin 0; Fin 0]; [Fin 0; Fin 0; Fin 0; Fin 0]].

(** The tables of the docstring of [build_percent_result]. *)
Definition ex_interactions : list Interaction :=
  [mkInteraction 1 "g1" "g2"; mkInteraction 2 "g2" "g3"].

Definition ex_pairs : list (string * string) :=
  [("cluster1", "cluster1"); ("cluster1", "cluster2")]%string.

Definition ex_columns : list string := ["cluster1_cluster1"; "cluster1_cluster2"]%string.

Definition ex_real_mean : Frame nat :=
  frame_of_rows [1; 2]%nat ex_columns [[Fin (1 # 2); Fin (2 # 5)]; [Fin 0; Fin (1 # 5)]].

Definition ex_real_percents : Frame nat :=
  frame_of_rows [1; 2]%nat ex_columns [[Fin 1; Fin 0]; [Fin 0; Fin 1]].

Definition ex_shuffled : list (Frame nat) :=
  [frame_of_rows [1; 2]%nat ex_columns [[Fin (3 # 5); Fin (1 # 10)]; [Fin 0; Fin (1 # 5)]];
   frame_of_rows [1; 2]%nat ex_columns [[Fin (1 # 2); Fin (2 # 5)]; [Fin 0; Fin (3 # 5)]]].


(** Real means with a NaN in the second cell of the first interaction. *)
Definition ex_nan_real_mean : Frame nat :=
  frame_of_rows [1; 2]%nat ex_columns [[Fin (1 # 2); NaN]; [Fin 0; Fin (1 # 5)]].


Definition ex_all_ones : Frame nat :=
  frame_of_rows [1; 2]%nat ex_columns [[Fin 1; Fin 1]; [Fin 1; Fin 1]].

(** Differential means of two clusters over three genes. *)
Definition ex_means : gmap string Series :=
  {[ "cluster1"%string :=
       {[ "g1"%string := Fin 0; "g2"%string := Fin 4; "g3"%string := NaN ]};
     "cluster2"%string :=
       {[ "g1"%string := Fin 2; "g2"%string := Fin (1 # 2); "g3"%string := Fin 1 ]} ]}.

(** Metadata whose groups are spelled otherwise. *)
Definition ex_meta_case_control : Meta :=
  [mkMeta "cell1" "A" "case"; mkMeta "cell2" "A" "control"]%string.

(** A linear congruential generator standing for numpy's. *)
Definition lcg_interval (max : nat) (g : N) : nat * N :=
  (N.to_nat (g mod N.of_nat (max + 1)), (g * 1103515245 + 12345) mod 2147483648)%N.

(** The real means of the docstring with a smaller first row. *)
Definition ex_low_real_mean : Frame nat :=
  frame_of_rows [1; 2]%nat ex_columns [[Fin (1 # 4); Fin (1 # 20)]; [Fin 0; Fin (1 # 5)]].

(** ** [get_cluster_combinations] *)

(** [x <= y] on two tuples of strings, as Python compares them: by the
    first components, and by the second ones when the first are equal.
    Strings are compared character by character, by code. *)
Definition tuple_leb (x y : string * string) : bool :=
  match String.compare x.1 y.1 with
  | Lt => true
  | Eq => String.leb x.2 y.2
  | Gt => false
  end.

Definition tuple_le (x y : string * string) : Prop := tuple_leb x y = true.

#[export] Instance tuple_le_dec : RelDecision tuple_le :=
  λ x y, decide (tuple_leb x y = true).

(** [itertools.product(cluster_names, repeat=2)]. *)
Definition product2 (cluster_names : list string) : list (string * string) :=
  a ← cluster_names; pair a <$> cluster_names.

(** [sorted(...)] is a merge sort here; the order is total and
    antisymmetric, so the sorted list does not depend on the algorithm. *)
Definition get_cluster_combinations (cluster_names : list string)
  : list (string * string) :=
  merge_sort tuple_le (product2 cluster_names).

(** ** [filter_counts_by_interactions] *)

(** [ensembl_1.append(ensembl_2).drop_duplicates()]. *)
Definition interaction_genes (interactions : list Interaction) : list string :=
  drop_duplicates ((ensembl_1 <$> interactions) ++ (ensembl_2 <$> interactions)).

(** The rows of [counts] with the labels [kept], in that order. *)
Definition select_rows (counts : Frame string) (kept : list string) : Frame string :=
  {| df_index := kept;
     df_columns := df_columns counts;
     df_values := filter (λ kv, kv.1.1 ∈ kept) (df_values counts) |}.

(** [counts.filter(items, axis=0)]: the items that label a row, in the
    order of the items. *)
Definition filter_items (counts : Frame string) (items : list string) : Frame string :=
  select_rows counts (List.filter (λ r, bool_decide (r ∈ df_index counts)) items).

Definition filter_counts_by_interactions (counts : Frame string)
    (interactions : list Interaction) : Frame string :=
  filter_items counts (interaction_genes interactions).

(** ** [filter_empty_cluster_counts] *)

(** [counts.empty]: no row or no column. *)
Definition frame_empty (counts : Frame string) : bool :=
  bool_decide (df_index counts = []) || bool_decide (df_columns counts = []).

(** [row.sum() > 0]; the sum skips NaN. *)
Definition row_sum_positive (counts : Frame string) (gene : string) : bool :=
  fgt (fsum (not_nan (row_values counts gene))) (Fin 0).

Definition filter_empty_cluster_counts (counts : Frame string) : Frame string :=
  if frame_empty counts then counts
  else select_rows counts (List.filter (row_sum_positive counts) (df_index counts)).

(** ** [build_clusters_ori] *)

Record ClustersOri : Type := mkClustersOri {
  names_ori : list string;
  counts_ori : gmap string (Frame string);
  means_ori : gmap string Series
}.

(** [meta[meta['cell_type'] == c].index]. *)
Definition cluster_cells (meta : Meta) (cluster_name : string) : list string :=
  cell <$> List.filter (λ r, bool_decide (cell_type r = cluster_name)) meta.

(** The body of the loop, on the two dictionaries it fills. *)
Definition ori_step (meta : Meta) (counts : Frame string)
    (st : gmap string (Frame string) * gmap string Series) (cluster_name : string)
  : result (gmap string (Frame string) * gmap string Series) :=
  let cells := cluster_cells meta cluster_name in
  do cluster_count <- loc_columns counts cells;
  Ok (<[cluster_name := cluster_count]> st.1,
      <[cluster_name := row_means cluster_count]> st.2).

Definition build_clusters_ori (meta : Meta) (counts : Frame string)
  : result ClustersOri :=
  let cluster_names := drop_duplicates (cell_type <$> meta) in
  do st <- for_each cluster_names (ori_step meta counts) (∅, ∅);
  Ok {| names_ori := cluster_names; counts_ori := st.1; means_ori := st.2 |}.

(** ** [_statistical_analysis] *)

Section Trial.
Variable rng : Type.
Variable rk_interval : nat → rng → nat * rng.
Variable log2_pos : Q → Q.

(** One permutation: shuffle, aggregate, score.  The outer [option] is
    the one of [shuffle_meta]; the [result] is what the two calls after it
    return or raise. *)
Definition _statistical_analysis (base_result : Frame nat)
    (cluster_interactions : list (string * string)) (counts : Frame string)
    (interactions : list Interaction) (meta : nat) (w : world rng)
  : option (result (Frame nat) * world rng) :=
  '(shuffled_meta, w') ← shuffle_meta rng rk_interval meta w;
  m ← frames w' !! shuffled_meta;
  Some (do shuffled_clusters <- build_clusters log2_pos m counts;
        mean_analysis interactions (means shuffled_clusters) cluster_interactions
          base_result,
        w').
End Trial.

(** ** Cluster names and column keys *)

(** No character of [s] is an underscore. *)
Fixpoint no_underscore (s : string) : bool :=
  match s with
  | EmptyString => true
  | String c s' => negb (Ascii.eqb c "_"%char) && no_underscore s'
  end.

(** ** [build_significant_means] *)






(** Real means below zero, and the same table with a lower first row. *)
Definition ex_negative_real_mean : Frame nat :=
  frame_of_rows [1; 2]%nat ex_columns
    [[Fin (-1 # 4); Fin (-1 # 20)]; [Fin 0; Fin (1 # 5)]].

Definition ex_more_negative_real_mean : Frame nat :=
  frame_of_rows [1; 2]%nat ex_columns
    [[Fin (-1 # 2); Fin (-1 # 10)]; [Fin 0; Fin (1 # 5)]].

(** Shuffled means on both sides of zero. *)
Definition ex_signed_shuffled : list (Frame nat) :=
  [frame_of_rows [1; 2]%nat ex_columns [[Fin (-3 # 10); Fin (1 # 10)]; [Fin 0; Fin 0]];
   frame_of_rows [1; 2]%nat ex_columns [[Fin (-3 # 5); Fin (-2 # 5)]; [Fin 0; Fin 0]];
   frame_of_rows [1; 2]%nat ex_columns [[Fin (1 # 5); NaN]; [Fin 0; Fin 0]]].

(** A percent table that was never filled. *)
Definition ex_unfilled : Frame nat := build_result_matrix ex_interactions ex_pairs.

(** P-values that lack the second interaction. *)
Definition ex_short_pvalues : Frame nat :=
  frame_of_rows [1%nat] ex_columns [[Fin 1; Fin 0]].

(** Counts with a gene that no interaction uses and a gene that no cell
    expresses. *)
Definition ex_wide_counts : Frame string :=
  frame_of_rows ["g1"; "g2"; "g9"; "g3"]%string ["cell1"; "cell2"; "cell3"]%string
    [[Fin 1; Fin 0; Fin 2]; [Fin 0; Fin 4; Fin 0];
     [Fin 5; Fin 5; Fin 5]; [Fin 0; NaN; Fin 0]].

(** Counts that lack the only cell of cluster B. *)
Definition ex_partial_counts : Frame string :=
  frame_of_rows ["g1"; "g2"]%string ["cell1"; "cell2"]%string
    [[Fin 1; Fin 0]; [Fin 0; Fin 4]].

(** Metadata with both groups in both clusters. *)
Definition ex_full_meta : Meta :=
  [mkMeta "cell1" "A" "tumor"; mkMeta "cell2" "A" "normal";
   mkMeta "cell3" "B" "tumor"; mkMeta "cell4" "B" "normal"]%string.

Definition ex_full_counts : Frame string :=
  frame_of_rows ["g1"; "g2"; "g3"]%string ["cell1"; "cell2"; "cell3"; "cell4"]%string
    [[Fin 1; Fin 2; Fin 4; Fin 1]; [Fin 2; Fin 2; Fin 1; Fin 8];
     [Fin 3; Fin 6; Fin 1; Fin 1]].

Definition ex_cluster_pairs : list (string * string) :=
  get_cluster_combinations ["A"; "B"]%string.

(** Clusters with one cluster, both groups and two genes. *)
Definition ex_clusters : Clusters :=
  {| names := ["A"]%string;
     groups := ["tumor"; "normal"]%string;
     counts_of :=
       {[ ("A", "tumor")%string :=
            frame_of_rows ["g1"; "g2"]%string ["cell1"]%string [[Fin 1]; [Fin 0]];
          ("A", "normal")%string :=
            frame_of_rows ["g1"; "g2"]%string ["cell2"]%string [[Fin 0]; [Fin 4]] ]};
     means := ∅ |}.

(** * Properties *)

(** ** The error monad and the loops *)

Lemma rbind_Ok {A B : Type} (m : result A) (k : A → result B) (b : B) :
  rbind m k = Ok b ↔ ∃ a, m = Ok a ∧ k a = Ok b.
Proof.
  destruct m as [a|e]; simpl; split.
  - eauto.
  - by intros (a' & [= <-] & Hk).
  - discriminate.
  - by intros (a' & [=] & _).
Qed.

Lemma for_each_app {A S : Type} (l1 l2 : list A) (body : S → A → result S) (s : S) :
  for_each (l1 ++ l2) body s = rbind (for_each l1 body s) (for_each l2 body).
Proof.
  revert s. induction l1 as [|x l1 IH]; intros s; simpl; [done|].
  destruct (body s x); simpl; auto.
Qed.

Lemma for_each_fmap {A B S : Type} (g : A → B) (l : list A)
    (body : S → B → result S) (s : S) :
  for_each (g <$> l) body s = for_each l (λ s x, body s (g x)) s.
Proof.
  revert s. induction l as [|x l IH]; intros s; simpl; [done|].
  destruct (body s (g x)); simpl; auto.
Qed.

Lemma for_each_nested {A B S : Type} (l1 : list A) (l2 : list B)
    (body : A → S → B → result S) (s : S) :
  for_each l1 (λ s x, for_each l2 (body x) s) s =
  for_each (x ← l1; pair x <$> l2) (λ s p, body p.1 s p.2) s.
Proof.
  revert s. induction l1 as [|x l1 IH]; intros s; [done|].
  cbn [mbind list_bind]. simpl. rewrite for_each_app, for_each_fmap. simpl.
  destruct (for_each l2 (body x) s) eqn:E.
  - simpl. apply IH.
  - done.
Qed.

(** ** Frames *)

Section FrameFacts.
Context {R : Type} `{Countable R}.
Implicit Types (df : Frame R) (i : R) (c : string).

Lemma elem_of_add_label {A : Type} `{EqDecision A} (x y : A) (l : list A) :
  x ∈ add_label y l ↔ x = y ∨ x ∈ l.
Proof.
  unfold add_label. destruct (decide (y ∈ l)) as [Hy|Hy].
  - rewrite bool_decide_eq_true_2 by done. split; [auto | by intros [->|?]].
  - rewrite bool_decide_eq_false_2 by done.
    rewrite elem_of_app, list_elem_of_singleton. tauto.
Qed.

Lemma has_cell_at_set df i c v i' c' :
  has_cell (at_set df i c v) i' c' =
  bool_decide (i' = i ∨ i' ∈ df_index df) && bool_decide (c' = c ∨ c' ∈ df_columns df).
Proof.
  unfold has_cell; simpl. f_equal; apply bool_decide_ext, elem_of_add_label.
Qed.

Lemma at_get_at_set_eq df i c v : at_get (at_set df i c v) i c = Ok v.
Proof.
  unfold at_get. rewrite has_cell_at_set.
  rewrite !bool_decide_eq_true_2 by auto. simpl.
  by rewrite lookup_insert_eq.
Qed.

Lemma at_get_at_set_ne df i c v i' c' x :
  (i, c) ≠ (i', c') → at_get df i' c' = Ok x →
  at_get (at_set df i c v) i' c' = Ok x.
Proof.
  unfold at_get. intros Hne. rewrite has_cell_at_set.
  unfold has_cell. destruct (bool_decide (i' ∈ df_index df)) eqn:Ei; [|done].
  destruct (bool_decide (c' ∈ df_columns df)) eqn:Ec; [|done].
  apply bool_decide_eq_true in Ei, Ec.
  rewrite !bool_decide_eq_true_2 by auto. simpl.
  by rewrite lookup_insert_ne.
Qed.
End FrameFacts.

(** ** Floating-point facts *)


Lemma flt_irrefl (x : npfloat) : flt x x = false.
Proof.
  destruct x; simpl; auto.
  apply negb_false_iff, Qle_bool_iff, Qle_refl.
Qed.

Lemma flt_trans (x y z : npfloat) :
  flt x y = true → flt y z = true → flt x z = true.
Proof.
  destruct x, y, z; simpl; try done.
  rewrite !negb_true_iff, <- !not_true_iff_false, !Qle_bool_iff.
  intros H1 H2 H3. apply H1. apply Qnot_le_lt in H2.
  eapply Qle_trans; [apply Qlt_le_weak, H2 | apply H3].
Qed.

Lemma flt_feq_false (x y : npfloat) : flt x y = true → feq x y = false.
Proof.
  destruct x, y; simpl; try done.
  rewrite negb_true_iff, <- !not_true_iff_false, Qle_bool_iff, Qeq_bool_iff.
  intros Hle Heq. apply Hle. rewrite Heq. apply Qle_refl.
Qed.

Lemma feq_comm (x y : npfloat) : feq x y = feq y x.
Proof.
  destruct x, y; simpl; try done.
  apply eq_true_iff_eq. rewrite !Qeq_bool_iff. split; intros E; by symmetry.
Qed.



(** ** [build_percent_result] *)

Lemma percent_loop_flat rm rp stat interactions cis st :
  percent_loop rm rp stat interactions cis st =
  for_each (all_cells interactions cis)
    (λ st cl, percent_cell rm rp stat cl.1 st cl.2) st.
Proof. apply for_each_nested. Qed.

Lemma elem_of_all_cells interactions cis interaction ci :
  (interaction, ci) ∈ all_cells interactions cis ↔
  interaction ∈ interactions ∧ ci ∈ cis.
Proof.
  unfold all_cells. rewrite list_elem_of_bind. split.
  - intros (x & Hin & Hx). apply list_elem_of_fmap in Hin as (y & [= -> ->] & Hy). done.
  - intros [Hi Hc]. exists interaction. split; [|done].
    apply list_elem_of_fmap. eauto.
Qed.

Lemma py_truediv_pos (a n : nat) :
  n ≠ O → py_truediv a n = Ok (fin (of_nat a / of_nat n)).
Proof. by destruct n. Qed.

Lemma flt_asym (x y : npfloat) : flt x y = true → flt y x = false.
Proof.
  intros Hxy. destruct (flt y x) eqn:Hyx; [|done].
  pose proof (flt_trans _ _ _ Hxy Hyx) as Hc. by rewrite flt_irrefl in Hc.
Qed.










(** ** Monotonicity of the p-value *)

Lemma filter_length_le {A : Type} (P Q : A → bool) (l : list A) :
  (∀ x, P x = true → Q x = true) →
  (length (List.filter P l) ≤ length (List.filter Q l))%nat.
Proof.
  intros HPQ. induction l as [|x l IH]; simpl; [done|].
  destruct (P x) eqn:HP.
  - rewrite (HPQ x HP). simpl. lia.
  - destruct (Q x); simpl; lia.
Qed.

Lemma of_nat_le (a b : nat) : (a ≤ b)%nat → (of_nat a <= of_nat b)%Q.
Proof. intros Hab. unfold of_nat. rewrite <- Zle_Qle. lia. Qed.

Lemma of_nat_nonneg (a : nat) : (0 <= of_nat a)%Q.
Proof. apply (of_nat_le 0 a). lia. Qed.

Lemma two_tails_le (a b n : nat) :
  (a ≤ b)%nat →
  fle (fmul (fin (of_nat a / of_nat n)) (Fin 2))
      (fmul (fin (of_nat b / of_nat n)) (Fin 2)) = true.
Proof.
  intros Hab. simpl. apply Qle_bool_iff. rewrite !Qred_correct.
  apply Qmult_le_compat_r; [|done].
  unfold Qdiv. apply Qmult_le_compat_r; [by apply of_nat_le|].
  apply Qinv_le_0_compat, of_nat_nonneg.
Qed.

Lemma tail_fraction_monotone means prev m1 m2 :
  flt (Fin 0) m1 = true → flt m1 m2 = true →
  match tail_fraction m1 means prev, tail_fraction m2 means prev with
  | Ok (Some p1), Ok (Some p2) => fle p2 p1 = true
  | Raise e1, Raise e2 => e1 = e2
  | _, _ => False
  end.
Proof.
  intros H1 H12. pose proof (flt_trans _ _ _ H1 H12) as H2.
  unfold tail_fraction, fgt. rewrite H1, H2.
  destruct (length (not_nan means)) as [|n] eqn:En; simpl; [done|].
  apply two_tails_le, filter_length_le.
  intros x. unfold fgt. apply flt_trans, H12.
Qed.

(** C7.  With the shuffled means of a cell held fixed, a larger positive
    real mean never gets a larger p-value: for [0 < m1 < m2] the two runs
    of the loop body end the same way, and when they bind a p-value the
    one of [m2] is at most the one of [m1]. *)
Theorem pvalue_monotone_in_positive_real_mean
    rm1 rm2 rp stat prev i c m1 m2 :
  at_get rm1 i c = Ok m1 → at_get rm2 i c = Ok m2 →
  flt (Fin 0) m1 = true → flt m1 m2 = true →
  match result_percent_at rm1 rp stat prev i c,
        result_percent_at rm2 rp stat prev i c with
  | Ok (Some p1), Ok (Some p2) => fle p2 p1 = true
  | Raise e1, Raise e2 => e1 = e2
  | _, _ => False
  end.
Proof.
  intros E1 E2 H1 H12. pose proof (flt_trans _ _ _ H1 H12) as H2.
  unfold result_percent_at. rewrite E1, E2. simpl rbind.
  destruct (at_get rp i c) as [f|]; simpl rbind; [|done].
  destruct (py_int f) as [flag|]; simpl rbind; [|done].
  rewrite (feq_comm m1), (feq_comm m2).
  rewrite (flt_feq_false _ _ H1), (flt_feq_false _ _ H2), !orb_false_r.
  destruct (flag =? 0).
  { simpl. by apply Qle_bool_iff. }
  destruct (shuffled_means stat i c) as [means|]; simpl rbind; [|done].
  by apply tail_fraction_monotone.
Qed.

(** ** A real mean that is NaN *)

Lemma tail_fraction_nan means prev : tail_fraction NaN means prev = Ok prev.
Proof. done. Qed.

(** After a cell went through, its own value is both in the table and in
    [result_percent]. *)
Lemma percent_cell_Ok rm rp stat interaction st ci st' :
  percent_cell rm rp stat interaction st ci = Ok st' →
  ∃ p, result_percent st' = Some p ∧
       at_get (percent_result st') (interaction_index interaction)
              (cluster_interaction_string ci) = Ok p.
Proof.
  unfold percent_cell.
  destruct (result_percent_at _ _ _ _ _ _) as [[p|]|]; simpl; try done.
  intros [= <-]. exists p. split; [done|]. apply at_get_at_set_eq.
Qed.

Lemma loop_snoc_Ok rm rp stat pre cl st0 st :
  for_each (pre ++ [cl]) (λ st cl, percent_cell rm rp stat cl.1 st cl.2) st0 = Ok st →
  ∃ p, result_percent st = Some p ∧
       at_get (percent_result st) (cell_key cl).1 (cell_key cl).2 = Ok p.
Proof.
  rewrite for_each_app. intros (st1 & _ & Hlast)%rbind_Ok.
  simpl in Hlast. apply rbind_Ok in Hlast as (st2 & Hcell & [= ->]).
  by apply percent_cell_Ok in Hcell.
Qed.

(** C9.  In a cell whose real percent flag is not zero and whose real
    mean is NaN no branch binds [result_percent].  If the cell is the
    first one the call raises [UnboundLocalError]; otherwise the value of
    the cell visited just before is written into it. *)
Theorem build_percent_result_nan_real_mean
    rm rp stat interactions cis base pre cl post f flag means :
  all_cells interactions cis = pre ++ cl :: post →
  at_get rm (cell_key cl).1 (cell_key cl).2 = Ok NaN →
  at_get rp (cell_key cl).1 (cell_key cl).2 = Ok f →
  py_int f = Ok flag → flag ≠ 0 →
  shuffled_means stat (cell_key cl).1 (cell_key cl).2 = Ok means →
  (∀ prev, result_percent_at rm rp stat prev (cell_key cl).1 (cell_key cl).2
             = Ok prev) ∧
  (pre = [] →
     build_percent_result rm rp stat interactions cis base = Raise UnboundLocalError) ∧
  (∀ before st,
     last pre = Some before →
     for_each pre (λ st cl, percent_cell rm rp stat cl.1 st cl.2)
       {| percent_result := base; result_percent := None |} = Ok st →
     ∃ p,
       at_get (percent_result st) (cell_key before).1 (cell_key before).2 = Ok p ∧
       percent_cell rm rp stat cl.1 st cl.2 =
       Ok {| percent_result :=
               at_set (percent_result st) (cell_key cl).1 (cell_key cl).2 p;
             result_percent := Some p |}).
Proof.
  intros Hsplit Hm Hf Hflag Hnz Hmeans. cbn [cell_key fst snd] in *.
  assert (Hkeep : ∀ prev,
            result_percent_at rm rp stat prev (cell_key cl).1 (cell_key cl).2
            = Ok prev).
  { intros prev. unfold result_percent_at. cbn [cell_key fst snd].
    rewrite Hm, Hf. simpl rbind.
    rewrite Hflag. simpl rbind. apply Z.eqb_neq in Hnz. rewrite Hnz. cbn [feq orb].
    by rewrite Hmeans. }
  split; [done|]. split.
  - intros ->. unfold build_percent_result.
    rewrite percent_loop_flat, Hsplit. simpl.
    unfold percent_cell. cbn [cell_key fst snd] in Hkeep. by rewrite Hkeep.
  - intros before st Hlast Hrun.
    apply last_Some in Hlast as (pre' & ->).
    apply loop_snoc_Ok in Hrun as (p & Hp & Hat).
    exists p. split; [done|].
    unfold percent_cell. cbn [cell_key fst snd] in Hkeep. by rewrite Hkeep, Hp.
Qed.

(** ** [get_significant_means] *)

Lemma get_significant_means_flat real pv :
  get_significant_means real pv =
  for_each (i ← df_index real; pair i <$> df_columns pv) (significant_cell pv) real.
Proof. unfold get_significant_means. by rewrite for_each_nested. Qed.

(** The cells the loops visit are masked when their p-value is above the
    cutoff; every other cell keeps what it held. *)
Lemma significant_loop pv (cells : list (nat * string)) sm :
  (∀ cl, cl ∈ cells → ∃ p, at_get pv cl.1 cl.2 = Ok p) →
  ∃ sm', for_each cells (significant_cell pv) sm = Ok sm' ∧
    ∀ i c m, at_get sm i c = Ok m →
      at_get sm' i c =
      Ok (if bool_decide ((i, c) ∈ cells) &&
             match at_get pv i c with
             | Ok p => fgt p min_significant_mean
             | Raise _ => false
             end
          then NaN else m).
Proof.
  revert sm. induction cells as [|[i0 c0] cells IH]; intros sm Hpv.
  { exists sm. split; [done|]. intros i c m Hm. rewrite bool_decide_eq_false_2; [done|].
    apply not_elem_of_nil. }
  destruct (Hpv (i0, c0)) as [p0 Hp0]; [left|].
  cbn [for_each]. unfold significant_cell at 1. cbn [fst snd] in Hp0 |- *. rewrite Hp0. simpl rbind.
  set (sm1 := if fgt p0 min_significant_mean then at_set sm i0 c0 NaN else sm).
  destruct (IH sm1) as (sm' & Hrun & Hsm').
  { intros cl Hcl. apply Hpv. by right. }
  exists sm'. split; [done|]. intros i c m Hm.
  destruct (decide ((i0, c0) = (i, c))) as [[= <- <-]|Hne].
  - rewrite bool_decide_eq_true_2 by left. rewrite Hp0. cbn [andb].
    destruct (fgt p0 min_significant_mean) eqn:Hgt; subst sm1.
    + rewrite (Hsm' i0 c0 NaN) by apply at_get_at_set_eq.
      destruct (bool_decide _ && _); reflexivity.
    + rewrite (Hsm' i0 c0 m Hm). rewrite Hp0, Hgt. by rewrite andb_false_r.
  - assert (Hm1 : at_get sm1 i c = Ok m).
    { subst sm1. destruct (fgt p0 min_significant_mean); [|done].
      by apply at_get_at_set_ne. }
    rewrite (Hsm' i c m Hm1).
    rewrite (bool_decide_ext ((i, c) ∈ (i0, c0) :: cells) ((i, c) ∈ cells)); [done|].
    rewrite elem_of_cons. split; [|by right]. by intros [?|?].
Qed.

(** C6.  When the p-value table has every row of the real means,
    [get_significant_means] returns a table whose cell is NaN where the
    p-value is strictly above 0.05 and the real mean itself everywhere
    else; on the tables of its docstring, 2.0 at p = 0.62 is masked and
    0.1 at p = 0.0 is kept. *)
Theorem get_significant_means_masks :
  (∀ real pv,
     (∀ i, i ∈ df_index real → i ∈ df_index pv) →
     ∃ sm, get_significant_means real pv = Ok sm ∧
       ∀ i c m p,
         i ∈ df_index real → c ∈ df_columns pv →
         at_get real i c = Ok m → at_get pv i c = Ok p →
         at_get sm i c = Ok (if fgt p min_significant_mean then NaN else m)) ∧
  (let cols := ["cluster1"; "cluster2"; "cluster"]%string in
   let q (n d : Z) := Fin (n # Z.to_pos d) in
   do sm <- get_significant_means
              (frame_of_rows [1; 2; 3]%nat cols
                 [[q 1 10; q 1 1; q 2 1]; [q 2 1; q 1 10; q 1 5]; [q 3 10; q 0 1; q 1 2]])
              (frame_of_rows [1; 2; 3]%nat cols
                 [[q 0 1; q 1 1; q 1 1]; [q 1 25; q 3 100; q 31 50];
                  [q 3 10; q 11 20; q 1 50]]);
   mapM (λ i, mapM (at_get sm i) cols) [1; 2; 3]%nat) =
  Ok [[Fin (1 # 10); NaN; NaN]; [Fin 2; Fin (1 # 10); NaN]; [NaN; NaN; Fin (1 # 2)]].
Proof.
  split; [|by vm_compute].
  intros real pv Hrows. rewrite get_significant_means_flat.
  destruct (significant_loop pv (i ← df_index real; pair i <$> df_columns pv) real)
    as (sm & Hrun & Hsm).
  { intros [i c] (i' & Hin & Hi')%list_elem_of_bind.
    apply list_elem_of_fmap in Hin as (c' & [= -> ->] & Hc'). simpl.
    unfold at_get, has_cell. rewrite !bool_decide_eq_true_2 by auto. simpl. eauto. }
  exists sm. split; [done|]. intros i c m p Hi Hc Hm Hp.
  rewrite (Hsm i c m Hm), Hp. rewrite bool_decide_eq_true_2; [done|].
  apply list_elem_of_bind. exists i. split; [|done]. apply list_elem_of_fmap. eauto.
Qed.

(** ** [cluster_interaction_mean] and [mean_analysis] *)

Lemma mean_analysis_flat interactions means cis base :
  mean_analysis interactions means cis base =
  for_each (all_cells interactions cis) (mean_cell means) base.
Proof. unfold mean_analysis. by rewrite for_each_nested. Qed.

(** A loop that writes one value per cell, over cells with distinct keys:
    each cell ends up holding its own value. *)
Lemma mean_loop means (cells : list (Interaction * (string * string))) res :
  forallb (λ cl, is_ok (cluster_interaction_mean cl.2 cl.1 means)) cells = true →
  NoDup (cell_key <$> cells) →
  ∃ res', for_each cells (mean_cell means) res = Ok res' ∧
    (∀ cl, cl ∈ cells →
       at_get res' (cell_key cl).1 (cell_key cl).2 =
       cluster_interaction_mean cl.2 cl.1 means) ∧
    (∀ k v, k ∉ cell_key <$> cells →
       at_get res k.1 k.2 = Ok v → at_get res' k.1 k.2 = Ok v).
Proof.
  revert res. induction cells as [|cl cells IH]; intros res Hok Hdup.
  { exists res. split; [done|]. split; [|done]. by intros cl ?%elem_of_nil. }
  simpl in Hok. apply andb_true_iff in Hok as [Hcl Hcells].
  rewrite fmap_cons in Hdup. apply NoDup_cons in Hdup as [Hfresh Hdup].
  destruct (cluster_interaction_mean cl.2 cl.1 means) as [v|] eqn:Ev; [|done].
  destruct (IH (at_set res (cell_key cl).1 (cell_key cl).2 v) Hcells Hdup)
    as (res' & Hrun & Hin & Hout).
  exists res'. split; [|split].
  - cbn [for_each]. unfold mean_cell at 1. rewrite Ev. exact Hrun.
  - intros cl' [->|Hcl']%elem_of_cons; [|by apply Hin].
    rewrite Ev. apply (Hout (cell_key cl) v Hfresh), at_get_at_set_eq.
  - intros k w Hk Hw. rewrite fmap_cons, not_elem_of_cons in Hk.
    destruct Hk as [Hne Hk]. apply (Hout k w Hk).
    apply at_get_at_set_ne; [|done]. destruct (cell_key cl), k. naive_solver.
Qed.

Lemma cluster_interaction_mean_Ok ci interaction (means : gmap string Series)
    side1 side2 a b :
  means !! ci.1 = Some side1 → means !! ci.2 = Some side2 →
  side1 !! ensembl_1 interaction = Some a → side2 !! ensembl_2 interaction = Some b →
  cluster_interaction_mean ci interaction means = Ok (fdiv (fadd a b) (Fin 2)).
Proof.
  intros H1 H2 Ha Hb. unfold cluster_interaction_mean, dict_get.
  rewrite H1, H2. cbn [rbind]. by rewrite Ha, Hb.
Qed.

Lemma half_sum_fin (x y : Q) : fdiv (fadd (Fin x) (Fin y)) (Fin 2) ≃ Fin ((x + y) / 2).
Proof.
  unfold fadd, fdiv, fin. change (Qsign 2) with Gt. cbn [feqv].
  by rewrite !Qred_correct.
Qed.

Lemma half_sum_nan (a b : npfloat) :
  isnan a = true ∨ isnan b = true → fdiv (fadd a b) (Fin 2) = NaN.
Proof. intros [Ha|Hb]; destruct a, b; try done. Qed.

(** C4.  For every interaction and ordered cluster pair (A, B) the score
    is [(a + b) / 2], where [a] is the differential mean of side 1 under A
    and [b] that of side 2 under B; [mean_analysis] puts it in the cell of
    the pair.  On numbers this is the arithmetic mean, a zero side
    included, and it is NaN as soon as one side is NaN. *)
Theorem mean_analysis_scores interactions (means : gmap string Series) cis base :
  forallb (λ cl, is_ok (cluster_interaction_mean cl.2 cl.1 means))
    (all_cells interactions cis) = true →
  NoDup (cell_key <$> all_cells interactions cis) →
  (∃ res, mean_analysis interactions means cis base = Ok res ∧
     ∀ interaction ci side1 side2 a b,
       interaction ∈ interactions → ci ∈ cis →
       means !! ci.1 = Some side1 → means !! ci.2 = Some side2 →
       side1 !! ensembl_1 interaction = Some a →
       side2 !! ensembl_2 interaction = Some b →
       cluster_interaction_mean ci interaction means = Ok (fdiv (fadd a b) (Fin 2)) ∧
       at_get res (interaction_index interaction) (cluster_interaction_string ci)
       = Ok (fdiv (fadd a b) (Fin 2))) ∧
  (∀ x y, fdiv (fadd (Fin x) (Fin y)) (Fin 2) ≃ Fin ((x + y) / 2)) ∧
  (∀ y, fdiv (fadd (Fin 0) (Fin y)) (Fin 2) ≃ Fin (y / 2)) ∧
  (∀ a b, isnan a = true ∨ isnan b = true → fdiv (fadd a b) (Fin 2) = NaN).
Proof.
  intros Hok Hdup. split; [|split; [apply half_sum_fin|split; [|apply half_sum_nan]]].
  - rewrite mean_analysis_flat.
    destruct (mean_loop means _ base Hok Hdup) as (res & Hrun & Hin & _).
    exists res. split; [done|].
    intros interaction ci side1 side2 a b Hi Hc H1 H2 Ha Hb.
    pose proof (cluster_interaction_mean_Ok _ _ _ _ _ _ _ H1 H2 Ha Hb) as Hval.
    split; [done|]. rewrite <- Hval.
    apply (Hin (interaction, ci)). by apply elem_of_all_cells.
  - intros y. pose proof (half_sum_fin 0 y) as Hy.
    destruct (fdiv _ _); try done. cbn [feqv] in *.
    by rewrite Hy, Qplus_0_l.
Qed.

(** ** [shuffle_meta] *)

Lemma swap_Permutation {A : Type} (x : list A) (i j : nat) :
  (i < length x)%nat → (j < length x)%nat →
  ∃ x', swap x i j = Some x' ∧ x' ≡ₚ x.
Proof.
  intros Hi Hj.
  destruct (lookup_lt_is_Some_2 x i Hi) as [xi Exi].
  destruct (lookup_lt_is_Some_2 x j Hj) as [xj Exj].
  unfold swap. rewrite Exi, Exj. simpl. eexists. split; [done|].
  by apply Permutation_insert_swap.
Qed.

Lemma with_cell_types_columns (m : Meta) (column : list string) :
  length column = length m →
  cell_type <$> with_cell_types m column = column ∧
  group <$> with_cell_types m column = group <$> m ∧
  cell <$> with_cell_types m column = cell <$> m.
Proof.
  unfold with_cell_types. revert column.
  induction m as [|r m IH]; intros [|ct column] Hlen; simplify_eq/=; [done|].
  destruct (IH column) as (-> & -> & ->); done.
Qed.

Section ShuffleFacts.
Variable rng : Type.
Variable rk_interval : nat → rng → nat * rng.
(** [rk_interval max] draws from [0 .. max]. *)
Hypothesis rk_interval_bound : ∀ max g, ((rk_interval max g).1 ≤ max)%nat.

Lemma shuffle_from_Permutation {A : Type} (k : nat) (x : list A) (g : rng) :
  (k < length x ∨ k = 0)%nat →
  ∃ x' g', shuffle_from rng rk_interval k x g = Some (x', g') ∧ x' ≡ₚ x.
Proof.
  revert x g. induction k as [|k IH]; intros x g Hk; [by exists x, g|].
  destruct Hk as [Hk|?]; [|lia]. cbn [shuffle_from].
  pose proof (rk_interval_bound (S k) g) as Hj.
  destruct (rk_interval (S k) g) as [j g']. simpl in Hj.
  destruct (swap_Permutation x (S k) j) as (x1 & -> & Hx1); [lia..|]. simpl.
  destruct (IH x1 g') as (x' & g'' & -> & Hx').
  { left. rewrite (Permutation_length Hx1). lia. }
  exists x', g''. split; [done|]. by rewrite Hx'.
Qed.

Lemma np_random_shuffle_Permutation {A : Type} (x : list A) (g : rng) :
  ∃ x' g', np_random_shuffle rng rk_interval x g = Some (x', g') ∧ x' ≡ₚ x.
Proof.
  apply shuffle_from_Permutation. destruct x; simpl; lia.
Qed.

(** C8.  [shuffle_meta] returns a new frame whose cluster labels are a
    permutation of those of its argument, with the group label and the
    name of every cell where they were; the argument, like every other
    object, is left as it was. *)
Theorem shuffle_meta_permutes_a_copy (w : world rng) (meta : nat) (m : Meta) :
  frames w !! meta = Some m →
  ∃ meta_copy w' m',
    shuffle_meta rng rk_interval meta w = Some (meta_copy, w') ∧
    meta_copy ≠ meta ∧
    frames w' !! meta = Some m ∧
    (∀ l, l ≠ meta_copy → frames w' !! l = frames w !! l) ∧
    frames w' !! meta_copy = Some m' ∧
    cell_type <$> m' ≡ₚ cell_type <$> m ∧
    group <$> m' = group <$> m ∧
    cell <$> m' = cell <$> m.
Proof.
  intros Hm. unfold shuffle_meta, alloc. rewrite Hm. simpl.
  set (l := fresh (dom (frames w))).
  assert (Hl : frames w !! l = None).
  { apply not_elem_of_dom, is_fresh. }
  destruct (np_random_shuffle_Permutation (cell_type <$> m) (random_state w))
    as (column & g & -> & Hperm). simpl.
  assert (Hne : l ≠ meta) by congruence.
  exists l, (mkWorld (alter (λ mc, with_cell_types mc column) l
                             (<[l := m]> (frames w))) g),
         (with_cell_types m column).
  destruct (with_cell_types_columns m column) as (Hct & Hg & Hc).
  { rewrite (Permutation_length Hperm). by rewrite length_fmap. }
  simpl. repeat split; try done.
  - by rewrite lookup_alter_ne, lookup_insert_ne.
  - intros l' Hl'. by rewrite lookup_alter_ne, lookup_insert_ne.
  - by rewrite lookup_alter_eq, lookup_insert_eq.
  - by rewrite Hct.
Qed.
End ShuffleFacts.

(** ** [build_clusters] *)

Lemma elem_of_drop_duplicates_from (seen l : list string) (x : string) :
  x ∈ drop_duplicates_from seen l ↔ x ∈ l ∧ x ∉ seen.
Proof.
  revert seen. induction l as [|y l IH]; intros seen; simpl.
  { rewrite elem_of_nil. tauto. }
  destruct (decide (y ∈ seen)) as [Hy|Hy].
  - rewrite bool_decide_eq_true_2 by done. rewrite IH, elem_of_cons.
    split; [tauto|]. intros [[->|?] ?]; tauto.
  - rewrite bool_decide_eq_false_2 by done.
    rewrite !elem_of_cons, IH, elem_of_cons.
    destruct (decide (x = y)) as [->|Hne]; tauto.
Qed.

Lemma elem_of_drop_duplicates (l : list string) (x : string) :
  x ∈ drop_duplicates l ↔ x ∈ l.
Proof.
  unfold drop_duplicates. rewrite elem_of_drop_duplicates_from, elem_of_nil. tauto.
Qed.

Lemma drop_duplicates_cons (x : string) (l : list string) :
  drop_duplicates (x :: l) = x :: drop_duplicates_from [x] l.
Proof. done. Qed.

Lemma elem_of_cells_of meta cluster_name group_name c :
  c ∈ cells_of meta cluster_name group_name → ∃ r, r ∈ meta ∧ cell r = c.
Proof.
  unfold cells_of. intros (r & -> & Hr)%list_elem_of_fmap.
  apply list_elem_of_In, filter_In in Hr as [Hr _].
  exists r. split; [by apply list_elem_of_In|done].
Qed.

Lemma loc_columns_KeyError counts cells e :
  loc_columns counts cells = Raise e → e = KeyError.
Proof. unfold loc_columns. destruct (_ && _); congruence. Qed.

Lemma loc_columns_Ok counts cells cc :
  loc_columns counts cells = Ok cc → cc = select_columns counts cells.
Proof. unfold loc_columns. destruct (_ && _); congruence. Qed.

Lemma loc_columns_present counts cells :
  (∀ c, c ∈ cells → c ∈ df_columns counts) →
  loc_columns counts cells = Ok (select_columns counts cells).
Proof.
  intros Hin. unfold loc_columns. destruct cells as [|c cells]; [done|].
  rewrite bool_decide_eq_false_2 by done. cbn [negb andb forallb].
  rewrite bool_decide_eq_true_2; [done|]. apply Hin. by left.
Qed.

Section ClusterFacts.
Variable log2_pos : Q → Q.
Variables (meta : Meta) (counts : Frame string).

Lemma group_loop_inv cluster_name group_names st st' :
  for_each group_names (group_step meta counts cluster_name) st = Ok st' →
  cluster_de_means st' = cluster_de_means st ∧
  ∀ k, cluster_means st' !! k =
         (if bool_decide (k.1 = cluster_name ∧ k.2 ∈ group_names)
          then Some (row_means (counts_entry meta counts k))
          else cluster_means st !! k) ∧
       cluster_counts st' !! k =
         (if bool_decide (k.1 = cluster_name ∧ k.2 ∈ group_names)
          then Some (counts_entry meta counts k)
          else cluster_counts st !! k).
Proof.
  revert st. induction group_names as [|g gs IH]; intros st; cbn [for_each].
  { intros [= <-]. split; [done|]. intros k.
    rewrite bool_decide_eq_false_2; [done|]. rewrite elem_of_nil. tauto. }
  intros (st1 & Hstep & Hrun)%rbind_Ok. unfold group_step in Hstep.
  apply rbind_Ok in Hstep as (cc & Hcc%loc_columns_Ok & [= <-]).
  apply IH in Hrun as [Hde Hk]. cbn in Hde. split; [done|].
  intros k. destruct (Hk k) as [-> ->]. cbn [cluster_means cluster_counts].
  destruct (decide (k = (cluster_name, g))) as [->|Hne].
  - rewrite !lookup_insert_eq. cbn [fst snd].
    rewrite (bool_decide_eq_true_2 (_ ∧ g ∈ g :: gs)) by (split; [done|left]).
    unfold counts_entry. cbn [fst snd]. rewrite <- Hcc.
    by destruct (bool_decide _).
  - rewrite !lookup_insert_ne by done.
    rewrite (bool_decide_ext (k.1 = cluster_name ∧ k.2 ∈ g :: gs)
                             (k.1 = cluster_name ∧ k.2 ∈ gs)); [done|].
    rewrite elem_of_cons. destruct k as [c' g']. cbn [fst snd].
    split; [|tauto]. intros [-> [->|?]]; [done|tauto].
Qed.

Lemma group_loop_KeyError cluster_name group_names st e :
  for_each group_names (group_step meta counts cluster_name) st = Raise e →
  e = KeyError.
Proof.
  revert st. induction group_names as [|g gs IH]; intros st; cbn [for_each]; [done|].
  unfold group_step at 1.
  destruct (loc_columns counts _) as [cc|e'] eqn:Hcc; cbn [rbind].
  - apply IH.
  - intros [= <-]. by apply loc_columns_KeyError in Hcc.
Qed.

Lemma bc_inv_empty group_names :
  bc_inv log2_pos meta counts group_names []
    {| cluster_counts := ∅; cluster_means := ∅; cluster_de_means := ∅ |}.
Proof.
  repeat split; intros k; cbn; rewrite lookup_empty;
    rewrite bool_decide_eq_false_2; try done; rewrite elem_of_nil; tauto.
Qed.

Lemma cluster_step_inv group_names done st cluster_name st' :
  bc_inv log2_pos meta counts group_names done st →
  cluster_step log2_pos meta counts group_names st cluster_name = Ok st' →
  "tumor"%string ∈ group_names ∧ "normal"%string ∈ group_names ∧
  bc_inv log2_pos meta counts group_names (cluster_name :: done) st'.
Proof.
  intros (Hmeans & Hcounts & Hde). unfold cluster_step.
  intros (st1 & Hloop & Hrest)%rbind_Ok.
  apply group_loop_inv in Hloop as [Hde1 Hk].
  assert (Hmeans1 : ∀ k, cluster_means st1 !! k =
            if bool_decide (k.1 ∈ cluster_name :: done ∧ k.2 ∈ group_names)
            then Some (row_means (counts_entry meta counts k)) else None).
  { intros k. destruct (Hk k) as [-> _]. rewrite Hmeans.
    destruct (decide (k.2 ∈ group_names)) as [Hg|Hg];
      destruct (decide (k.1 = cluster_name)) as [Hc|Hc];
      destruct (decide (k.1 ∈ done)) as [Hd|Hd];
      repeat (first [rewrite bool_decide_eq_true_2
                       by (rewrite ?elem_of_cons; tauto)
                    |rewrite bool_decide_eq_false_2
                       by (rewrite ?elem_of_cons; tauto)]); done. }
  assert (Hcounts1 : ∀ k, cluster_counts st1 !! k =
            if bool_decide (k.1 ∈ cluster_name :: done ∧ k.2 ∈ group_names)
            then Some (counts_entry meta counts k) else None).
  { intros k. destruct (Hk k) as [_ ->]. rewrite Hcounts.
    destruct (decide (k.2 ∈ group_names)) as [Hg|Hg];
      destruct (decide (k.1 = cluster_name)) as [Hc|Hc];
      destruct (decide (k.1 ∈ done)) as [Hd|Hd];
      repeat (first [rewrite bool_decide_eq_true_2
                       by (rewrite ?elem_of_cons; tauto)
                    |rewrite bool_decide_eq_false_2
                       by (rewrite ?elem_of_cons; tauto)]); done. }
  apply rbind_Ok in Hrest as (tumor & Ht & Hrest).
  apply rbind_Ok in Hrest as (normal & Hn & [= <-]).
  unfold dict_get in Ht, Hn. rewrite Hmeans1 in Ht, Hn. cbn [fst snd] in Ht, Hn.
  destruct (decide ("tumor"%string ∈ group_names)) as [Htg|Htg]; last first.
  { rewrite bool_decide_eq_false_2 in Ht by tauto. done. }
  destruct (decide ("normal"%string ∈ group_names)) as [Hng|Hng]; last first.
  { rewrite bool_decide_eq_false_2 in Hn by tauto. done. }
  rewrite bool_decide_eq_true_2 in Ht by (split; [left|done]).
  rewrite bool_decide_eq_true_2 in Hn by (split; [left|done]).
  injection Ht as <-. injection Hn as <-.
  split; [done|]. split; [done|]. split; [done|]. split; [done|].
  intros c. cbn [cluster_de_means]. rewrite Hde1.
  destruct (decide (c = cluster_name)) as [->|Hne].
  - rewrite lookup_insert_eq. by rewrite bool_decide_eq_true_2 by left.
  - rewrite lookup_insert_ne by done. rewrite Hde.
    rewrite (bool_decide_ext (c ∈ cluster_name :: done) (c ∈ done)); [done|].
    rewrite elem_of_cons. tauto.
Qed.

Lemma cluster_step_KeyError group_names st cluster_name e :
  cluster_step log2_pos meta counts group_names st cluster_name = Raise e →
  e = KeyError.
Proof.
  unfold cluster_step.
  destruct (for_each group_names _ st) as [st1|e'] eqn:Hloop; cbn [rbind].
  - unfold dict_get. repeat (case_match; cbn [rbind]); congruence.
  - intros [= <-]. by apply group_loop_KeyError in Hloop.
Qed.

Lemma cluster_loop_inv group_names cluster_names done st st' :
  bc_inv log2_pos meta counts group_names done st →
  for_each cluster_names (cluster_step log2_pos meta counts group_names) st = Ok st' →
  (cluster_names ≠ [] →
     "tumor"%string ∈ group_names ∧ "normal"%string ∈ group_names) ∧
  ∃ done', (∀ c, c ∈ done' ↔ c ∈ cluster_names ∨ c ∈ done) ∧
           bc_inv log2_pos meta counts group_names done' st'.
Proof.
  revert done st. induction cluster_names as [|c cs IH]; intros done st Hinv;
    cbn [for_each].
  { intros [= <-]. split; [done|]. exists done. split; [|done].
    intros c. rewrite elem_of_nil. tauto. }
  intros (st1 & Hstep & Hrun)%rbind_Ok.
  apply (cluster_step_inv _ _ _ _ _ Hinv) in Hstep as (Ht & Hn & Hinv1).
  destruct (IH _ _ Hinv1 Hrun) as (_ & done' & Hdone' & Hinv').
  split; [done|]. exists done'. split; [|done].
  intros c'. rewrite Hdone', !elem_of_cons. tauto.
Qed.

Lemma cluster_loop_KeyError group_names cluster_names st e :
  for_each cluster_names (cluster_step log2_pos meta counts group_names) st = Raise e →
  e = KeyError.
Proof.
  revert st. induction cluster_names as [|c cs IH]; intros st; cbn [for_each]; [done|].
  destruct (cluster_step _ _ _ _ st c) as [st1|e'] eqn:Hstep; cbn [rbind].
  - apply IH.
  - intros [= <-]. by apply cluster_step_KeyError in Hstep.
Qed.

Hypothesis cells_in_counts : ∀ r, r ∈ meta → cell r ∈ df_columns counts.

Lemma group_loop_total cluster_name group_names st :
  ∃ st', for_each group_names (group_step meta counts cluster_name) st = Ok st'.
Proof.
  revert st. induction group_names as [|g gs IH]; intros st; cbn [for_each].
  { by exists st. }
  unfold group_step at 1. rewrite loc_columns_present.
  - cbn [rbind]. apply IH.
  - intros c (r & Hr & <-)%elem_of_cells_of. by apply cells_in_counts.
Qed.

Lemma cluster_step_total group_names st cluster_name :
  "tumor"%string ∈ group_names → "normal"%string ∈ group_names →
  ∃ st', cluster_step log2_pos meta counts group_names st cluster_name = Ok st'.
Proof.
  intros Ht Hn. unfold cluster_step.
  destruct (group_loop_total cluster_name group_names st) as [st1 Hloop].
  rewrite Hloop. cbn [rbind].
  apply group_loop_inv in Hloop as [_ Hk]. unfold dict_get.
  destruct (Hk (cluster_name, "tumor"%string)) as [-> _].
  destruct (Hk (cluster_name, "normal"%string)) as [-> _].
  rewrite !bool_decide_eq_true_2 by done. cbn [rbind]. eauto.
Qed.

Lemma cluster_loop_total group_names cluster_names st :
  "tumor"%string ∈ group_names → "normal"%string ∈ group_names →
  ∃ st', for_each cluster_names (cluster_step log2_pos meta counts group_names) st
         = Ok st'.
Proof.
  intros Ht Hn. revert st.
  induction cluster_names as [|c cs IH]; intros st; cbn [for_each]; [by eexists|].
  destruct (cluster_step_total group_names st c Ht Hn) as [st1 ->].
  cbn [rbind]. apply IH.
Qed.
End ClusterFacts.

(** What [build_clusters] returns when it returns. *)
Lemma build_clusters_inv log2_pos meta counts clusters :
  build_clusters log2_pos meta counts = Ok clusters →
  names clusters = drop_duplicates (cell_type <$> meta) ∧
  groups clusters = drop_duplicates (group <$> meta) ∧
  (meta ≠ [] →
     "tumor"%string ∈ groups clusters ∧ "normal"%string ∈ groups clusters) ∧
  (∀ c, means clusters !! c =
          if bool_decide (c ∈ names clusters)
          then Some (de_entry log2_pos meta counts c) else None) ∧
  (∀ k, counts_of clusters !! k =
          if bool_decide (k.1 ∈ names clusters ∧ k.2 ∈ groups clusters)
          then Some (counts_entry meta counts k) else None).
Proof.
  unfold build_clusters. intros (st & Hloop & [= <-])%rbind_Ok. cbn.
  apply (cluster_loop_inv _ _ _ _ _ [] _ _ (bc_inv_empty _ _ _ _)) in Hloop
    as (Hgroups & done & Hdone & Hmeans & Hcounts & Hde).
  split; [done|]. split; [done|]. split; [|split].
  - intros Hmeta. apply Hgroups. destruct meta as [|r meta']; [done|].
    by rewrite fmap_cons, drop_duplicates_cons.
  - intros c. rewrite Hde. apply (f_equal (λ b : bool, if b then _ else _)).
    apply bool_decide_ext. rewrite Hdone, elem_of_nil. tauto.
  - intros k. rewrite Hcounts. apply (f_equal (λ b : bool, if b then _ else _)).
    apply bool_decide_ext. rewrite Hdone, elem_of_nil. tauto.
Qed.

Lemma build_clusters_KeyError log2_pos meta counts e :
  build_clusters log2_pos meta counts = Raise e → e = KeyError.
Proof.
  unfold build_clusters.
  destruct (for_each _ _ _) as [st|e'] eqn:Hloop; cbn [rbind]; [done|].
  intros [= <-]. by apply cluster_loop_KeyError in Hloop.
Qed.

Lemma build_clusters_total log2_pos meta counts :
  (∀ r, r ∈ meta → cell r ∈ df_columns counts) →
  "tumor"%string ∈ group <$> meta → "normal"%string ∈ group <$> meta →
  ∃ clusters, build_clusters log2_pos meta counts = Ok clusters.
Proof.
  intros Hcells Ht Hn. unfold build_clusters.
  destruct (cluster_loop_total log2_pos meta counts Hcells
              (drop_duplicates (group <$> meta))
              (drop_duplicates (cell_type <$> meta))
              {| cluster_counts := ∅; cluster_means := ∅; cluster_de_means := ∅ |})
    as [st ->]; [by apply elem_of_drop_duplicates..|].
  cbn [rbind]. eauto.
Qed.

(** ** Series lookups *)

Lemma list_to_map_graph {V : Type} (f : string → V) (l : list string) (g : string) :
  (list_to_map ((λ x, (x, f x)) <$> l) : gmap string V) !! g =
  if bool_decide (g ∈ l) then Some (f g) else None.
Proof.
  induction l as [|x l IH]; [done|]. cbn.
  destruct (decide (g = x)) as [->|Hne].
  - rewrite lookup_insert_eq. by rewrite bool_decide_eq_true_2 by left.
  - rewrite lookup_insert_ne by done. rewrite IH.
    apply (f_equal (λ b : bool, if b then _ else _)).
    apply bool_decide_ext. rewrite elem_of_cons. tauto.
Qed.

Lemma row_means_lookup cluster_count gene :
  row_means cluster_count !! gene =
  if bool_decide (gene ∈ df_index cluster_count)
  then Some (series_mean (row_values cluster_count gene)) else None.
Proof. apply (list_to_map_graph (λ g, series_mean (row_values cluster_count g))). Qed.

Lemma de_entry_lookup log2_pos meta counts cluster_name gene :
  gene ∈ df_index counts →
  de_entry log2_pos meta counts cluster_name !! gene =
  Some (np_log2 log2_pos
          (fdiv (series_mean (row_values
                   (counts_entry meta counts (cluster_name, "tumor"%string)) gene))
                (series_mean (row_values
                   (counts_entry meta counts (cluster_name, "normal"%string)) gene)))).
Proof.
  intros Hg. unfold de_entry, series_div.
  rewrite lookup_fmap, map_lookup_zip_with, !row_means_lookup.
  cbn [counts_entry select_columns df_index].
  by rewrite !bool_decide_eq_true_2.
Qed.

Lemma row_values_no_cells meta counts k gene :
  cells_of meta k.1 k.2 = [] → row_values (counts_entry meta counts k) gene = [].
Proof. unfold row_values, counts_entry. cbn. by intros ->. Qed.

(** ** Special values of the differential mean *)

Lemma Qsign_compare (q : Q) : Qsign q = (q ?= 0)%Q.
Proof. unfold Qsign, Qcompare. simpl. by rewrite Z.mul_1_r. Qed.

Lemma Qsign_Qred (q : Q) : Qsign (Qred q) = Qsign q.
Proof. rewrite !Qsign_compare. by rewrite Qred_correct. Qed.

Lemma Qsign_Eq (q : Q) : Qsign q = Eq ↔ (q == 0)%Q.
Proof. rewrite Qsign_compare. symmetry. apply Qeq_alt. Qed.

Lemma Qsign_Lt (q : Q) : Qsign q = Lt ↔ (q < 0)%Q.
Proof. rewrite Qsign_compare. symmetry. apply Qlt_alt. Qed.

Lemma Qsign_Gt (q : Q) : Qsign q = Gt ↔ (0 < q)%Q.
Proof. rewrite Qsign_compare. symmetry. apply Qgt_alt. Qed.

(** [np.log2(a / b)] on two numbers: what comes out when the divisor is
    zero or the ratio is not positive. *)
Lemma log2_ratio_special log2_pos (a b : Q) :
  let r := np_log2 log2_pos (fdiv (Fin a) (Fin b)) in
  ((b == 0)%Q → (0 < a)%Q → r = PInf) ∧
  ((b == 0)%Q → (a <= 0)%Q → r = NaN) ∧
  (¬ (b == 0)%Q → (a / b == 0)%Q → r = NInf) ∧
  (¬ (b == 0)%Q → (a / b < 0)%Q → r = NaN).
Proof.
  cbn zeta. unfold fdiv. repeat split.
  - intros Hb%Qsign_Eq Ha%Qsign_Gt. by rewrite Hb, Ha.
  - intros Hb%Qsign_Eq Ha. rewrite Hb.
    destruct (Qsign a) eqn:Es; try done.
    apply Qsign_Gt in Es. by apply Qlt_not_le in Es.
  - intros Hb Hr%Qsign_Eq.
    destruct (Qsign b) eqn:Es; [by apply Qsign_Eq in Es|..];
      unfold fin, np_log2; by rewrite Qsign_Qred, Hr.
  - intros Hb Hr%Qsign_Lt.
    destruct (Qsign b) eqn:Es; [by apply Qsign_Eq in Es|..];
      unfold fin, np_log2; by rewrite Qsign_Qred, Hr.
Qed.

(** C3, as the code has it.  [build_clusters] gives NaN, not an error, for
    every gene of a (cluster, group) without cells, and the differential
    mean of such a cluster is NaN.  The ratio never raises: over a zero
    divisor it is +inf for a positive dividend and NaN otherwise, a zero
    ratio gives -inf and a negative one NaN.  A NaN on either side of an
    interaction is the NaN of its cell in the table of [mean_analysis]. *)
Theorem build_clusters_special_values_propagate :
  (∀ log2_pos meta counts,
     Forall (λ r, cell r ∈ df_columns counts) meta →
     "tumor"%string ∈ group <$> meta → "normal"%string ∈ group <$> meta →
     ∃ clusters, build_clusters log2_pos meta counts = Ok clusters ∧
       ∀ c g, c ∈ names clusters → g ∈ groups clusters → cells_of meta c g = [] →
         (∃ cluster_count, counts_of clusters !! (c, g) = Some cluster_count ∧
            ∀ gene, gene ∈ df_index counts →
              row_means cluster_count !! gene = Some NaN) ∧
         (g = "tumor"%string ∨ g = "normal"%string →
            ∃ de, means clusters !! c = Some de ∧
              ∀ gene, gene ∈ df_index counts → de !! gene = Some NaN)) ∧
  (∀ log2_pos a b,
     let r := np_log2 log2_pos (fdiv (Fin a) (Fin b)) in
     ((b == 0)%Q → (0 < a)%Q → r = PInf) ∧
     ((b == 0)%Q → (a <= 0)%Q → r = NaN) ∧
     (¬ (b == 0)%Q → (a / b == 0)%Q → r = NInf) ∧
     (¬ (b == 0)%Q → (a / b < 0)%Q → r = NaN)) ∧
  (∀ interactions (means : gmap string Series) cis base,
     forallb (λ cl, is_ok (cluster_interaction_mean cl.2 cl.1 means))
       (all_cells interactions cis) = true →
     NoDup (cell_key <$> all_cells interactions cis) →
     ∃ res, mean_analysis interactions means cis base = Ok res ∧
       ∀ interaction ci side1 side2 a b,
         interaction ∈ interactions → ci ∈ cis →
         means !! ci.1 = Some side1 → means !! ci.2 = Some side2 →
         side1 !! ensembl_1 interaction = Some a →
         side2 !! ensembl_2 interaction = Some b →
         isnan a = true ∨ isnan b = true →
         at_get res (interaction_index interaction) (cluster_interaction_string ci)
         = Ok NaN).
Proof.
  split; [|split; [apply log2_ratio_special|]].
  - intros log2_pos meta counts Hcells Ht Hn.
    rewrite Forall_forall in Hcells.
    destruct (build_clusters_total log2_pos meta counts Hcells Ht Hn) as [cl Hcl].
    exists cl. split; [done|].
    apply build_clusters_inv in Hcl as (_ & _ & _ & Hmeans & Hcounts).
    intros c g Hc Hg Hempty. split.
    + exists (counts_entry meta counts (c, g)). split.
      { rewrite Hcounts. by rewrite bool_decide_eq_true_2. }
      intros gene Hgene. rewrite row_means_lookup.
      rewrite bool_decide_eq_true_2 by done.
      by rewrite (row_values_no_cells meta counts (c, g)).
    + intros Hgroup. exists (de_entry log2_pos meta counts c). split.
      { rewrite Hmeans. by rewrite bool_decide_eq_true_2. }
      intros gene Hgene. rewrite de_entry_lookup by done.
      destruct Hgroup as [-> | ->].
      * by rewrite (row_values_no_cells meta counts (c, "tumor"%string)).
      * rewrite (row_values_no_cells meta counts (c, "normal"%string)) by done.
        cbn [series_mean not_nan List.filter length].
        by destruct (series_mean _).
  - intros interactions means cis base Hok Hdup.
    rewrite mean_analysis_flat.
    destruct (mean_loop means _ base Hok Hdup) as (res & Hrun & Hin & _).
    exists res. split; [done|].
    intros interaction ci side1 side2 a b Hi Hc H1 H2 Ha Hb Hnan.
    rewrite <- (half_sum_nan a b Hnan).
    rewrite <- (cluster_interaction_mean_Ok _ _ _ _ _ _ _ H1 H2 Ha Hb).
    apply (Hin (interaction, ci)). by apply elem_of_all_cells.
Qed.

(** C3, counterexample.  In cluster A the gene g1 has mean 1 over the
    tumor cells and mean 0 over the normal cells: the zero divisor gives
    +inf, which is neither NaN nor -inf. *)
Lemma positive_over_zero_is_plus_infinity :
  series_mean (row_values (counts_entry ex_meta ex_counts ("A", "normal")%string)
                 "g1"%string) = Fin 0 ∧
  (do clusters <- build_clusters log2_approx ex_meta ex_counts;
   do de <- dict_get (means clusters) "A"%string;
   dict_get de "g1"%string) = Ok PInf ∧
  PInf ≠ NaN ∧ PInf ≠ NInf.
Proof. split; [by vm_compute|]. split; [by vm_compute|]. done. Qed.

(** ** The group labels ['tumor'] and ['normal'] *)

Lemma percents_step_missing clusters threshold percents cluster_name :
  counts_of clusters !! (cluster_name, "tumor"%string) = None ∨
  counts_of clusters !! (cluster_name, "normal"%string) = None →
  percents_step clusters threshold percents cluster_name = Raise KeyError.
Proof.
  unfold percents_step, dict_get. intros [Ht|Hn].
  - by rewrite Ht.
  - destruct (counts_of clusters !! (cluster_name, "tumor"%string)); [|done].
    cbn [rbind]. by rewrite Hn.
Qed.

(** C10, as the code has it.  The two labels are fixed in the code:
    [build_clusters] on a metadata table with at least one cell whose
    group column lacks ['tumor'] or ['normal'] raises [KeyError], and so
    does [percent_analysis] on clusters whose counts lack one of the two
    groups; when [build_clusters] returns, the differential mean of every
    cluster is [log2 (tumor mean / normal mean)].  Labels beyond the two
    do not make the call fail. *)
Theorem tumor_and_normal_are_hard_coded :
  (∀ log2_pos meta counts,
     meta ≠ [] →
     ¬ ("tumor"%string ∈ group <$> meta ∧ "normal"%string ∈ group <$> meta) →
     build_clusters log2_pos meta counts = Raise KeyError) ∧
  (∀ log2_pos meta counts clusters,
     build_clusters log2_pos meta counts = Ok clusters →
     ∀ c gene, c ∈ names clusters → gene ∈ df_index counts →
       ∃ tumor normal de,
         counts_of clusters !! (c, "tumor"%string) = Some tumor ∧
         counts_of clusters !! (c, "normal"%string) = Some normal ∧
         means clusters !! c = Some de ∧
         de !! gene =
         Some (np_log2 log2_pos (fdiv (series_mean (row_values tumor gene))
                                      (series_mean (row_values normal gene))))) ∧
  (∀ clusters threshold interactions cis base,
     names clusters ≠ [] →
     (∀ c, counts_of clusters !! (c, "tumor"%string) = None) ∨
     (∀ c, counts_of clusters !! (c, "normal"%string) = None) →
     percent_analysis clusters threshold interactions cis base = Raise KeyError) ∧
  (∀ log2_pos meta counts,
     Forall (λ r, cell r ∈ df_columns counts) meta →
     "tumor"%string ∈ group <$> meta → "normal"%string ∈ group <$> meta →
     ∃ clusters, build_clusters log2_pos meta counts = Ok clusters).
Proof.
  split; [|split; [|split]].
  - intros log2_pos meta counts Hmeta Hlabels.
    destruct (build_clusters log2_pos meta counts) as [cl|e] eqn:Hcl.
    + apply build_clusters_inv in Hcl as (_ & Hgroups & Hboth & _).
      exfalso. apply Hlabels. rewrite Hgroups in Hboth.
      destruct (Hboth Hmeta) as [Ht Hn].
      split; by apply elem_of_drop_duplicates.
    + by apply build_clusters_KeyError in Hcl as ->.
  - intros log2_pos meta counts cl Hcl c gene Hc Hgene.
    pose proof Hcl as Hinv.
    apply build_clusters_inv in Hinv as (Hnames & _ & Hboth & Hmeans & Hcounts).
    assert (Hmeta : meta ≠ []).
    { intros ->. rewrite Hnames in Hc. by apply elem_of_nil in Hc. }
    destruct (Hboth Hmeta) as [Ht Hn].
    exists (counts_entry meta counts (c, "tumor"%string)),
           (counts_entry meta counts (c, "normal"%string)),
           (de_entry log2_pos meta counts c).
    rewrite !Hcounts, Hmeans. cbn [fst snd].
    rewrite !bool_decide_eq_true_2 by done.
    split; [done|]. split; [done|]. split; [done|]. by apply de_entry_lookup.
  - intros clusters threshold interactions cis base Hnames Hmissing.
    unfold percent_analysis. destruct (names clusters) as [|c cs]; [done|].
    cbn [for_each]. rewrite percents_step_missing; [done|].
    destruct Hmissing as [Ht|Hn]; [left|right]; auto.
  - intros log2_pos meta counts Hcells. rewrite Forall_forall in Hcells.
    by apply build_clusters_total.
Qed.

(** C10, counterexample.  With a third group label next to ['tumor'] and
    ['normal'] the labels are not exactly the two names, and both calls
    return. *)
Lemma third_group_label_is_accepted :
  drop_duplicates (group <$> ex_meta3) = ["tumor"; "normal"; "control"]%string ∧
  build_clusters log2_approx ex_meta3 ex_counts ≠ Raise KeyError ∧
  is_ok (do clusters <- build_clusters log2_approx ex_meta3 ex_counts;
         percent_analysis clusters (Fin (1 # 10)) [mkInteraction 0 "g1" "g2"]
           [("A", "A")%string]
           (build_result_matrix [mkInteraction 0 "g1" "g2"] [("A", "A")%string]))
  = true.
Proof.
  split; [by vm_compute|]. split; [|by vm_compute].
  intros H. apply (f_equal is_ok) in H. vm_compute in H. discriminate.
Qed.

(** ** [counts_percent] inside [percent_analysis] *)

Lemma of_nat_ratio_one (n : nat) : n ≠ O → fin (of_nat n / of_nat n) = Fin 1.
Proof.
  intros Hn. unfold fin. change 1%Q with (Qred 1). f_equal.
  apply Qred_complete, Qmult_inv_r.
  unfold of_nat, inject_Z, Qeq. simpl. lia.
Qed.

Lemma mapM_Ok_fmap {A B : Type} (f : A → B) (l : list A) :
  mapM (λ x, Ok (f x)) l = Ok (f <$> l).
Proof. induction l as [|x l IH]; [done|]. cbn. by rewrite IH. Qed.

(** Inside [percent_analysis] every gene of a (cluster, group) that has
    cells gets the same flag, which only depends on the threshold. *)
Lemma percent_rows_constant counts threshold gene :
  df_index counts ≠ [] → df_columns counts ≠ [] → gene ∈ df_index counts →
  ∃ flags, percent_rows counts threshold = Ok flags ∧
    flags !! gene = Some (PyInt (if flt (Fin 1) threshold then 1 else 0)).
Proof.
  intros Hrows Hcols Hgene. unfold percent_rows.
  destruct (df_index counts) as [|g genes] eqn:Eg; [done|].
  destruct (df_columns counts) as [|c cols] eqn:Ec; [done|].
  unfold counts_percent. cbn [py_len positive_part frame_counts df_index].
  rewrite Eg. rewrite py_truediv_pos, of_nat_ratio_one by done. cbn [rbind].
  rewrite (mapM_Ok_fmap (λ gene, (gene, PyInt (if flt (Fin 1) threshold then 1 else 0)))).
  cbn [rbind]. eexists. split; [done|].
  rewrite (list_to_map_graph (λ _, PyInt (if flt (Fin 1) threshold then 1 else 0))).
  by rewrite bool_decide_eq_true_2.
Qed.

(** C5, the code at a failing input.  No cell of cluster A expresses g1
    or g2, so the share of expressing cells is 0, below the threshold 0.1:
    [counts_percent] on the row of g1 answers 1.  [percent_analysis] hands
    it the whole frame instead of the row, gets the flag 0 for the tumor
    and for the normal cells, and scores the pair (A, A) 1. *)
Theorem percent_analysis_flag_ignores_expression :
  let threshold := Fin (1 # 10) in
  let one := [mkInteraction 0 "g1" "g2"] in
  let pairs := [("A", "A")%string] in
  (do clusters <- build_clusters log2_approx ex_silent_meta ex_silent_counts;
   do counts_tumor <- dict_get (counts_of clusters) ("A", "tumor")%string;
   counts_percent (row_values counts_tumor "g1"%string) threshold) = Ok 1 ∧
  (do clusters <- build_clusters log2_approx ex_silent_meta ex_silent_counts;
   do counts_tumor <- dict_get (counts_of clusters) ("A", "tumor")%string;
   do percent_tumor <- percent_rows counts_tumor threshold;
   dict_get percent_tumor "g1"%string) = Ok (PyInt 0) ∧
  (do clusters <- build_clusters log2_approx ex_silent_meta ex_silent_counts;
   do counts_normal <- dict_get (counts_of clusters) ("A", "normal")%string;
   do percent_normal <- percent_rows counts_normal threshold;
   dict_get percent_normal "g1"%string) = Ok (PyInt 0) ∧
  (do clusters <- build_clusters log2_approx ex_silent_meta ex_silent_counts;
   do res <- percent_analysis clusters threshold one pairs
               (build_result_matrix one pairs);
   at_get res 0%nat "A_A") = Ok (Fin 1) ∧
  counts_percent [Fin (1 # 10); Fin (1 # 5); Fin (3 # 10); Fin 0] threshold = Ok 0.
Proof. cbn zeta. repeat (split; [by vm_compute|]). by vm_compute. Qed.

(** ** The theorems at concrete inputs *)



Lemma pvalue_monotone_in_positive_real_mean_witness :
  match result_percent_at ex_low_real_mean ex_all_ones ex_shuffled None 1%nat
          "cluster1_cluster2",
        result_percent_at ex_real_mean ex_all_ones ex_shuffled None 1%nat
          "cluster1_cluster2" with
  | Ok (Some p1), Ok (Some p2) => fle p2 p1 = true
  | Raise e1, Raise e2 => e1 = e2
  | _, _ => False
  end.
Proof.
  apply (pvalue_monotone_in_positive_real_mean
           ex_low_real_mean ex_real_mean ex_all_ones ex_shuffled None 1%nat
           "cluster1_cluster2"%string (Fin (1 # 20)) (Fin (2 # 5))).
  - vm_compute. reflexivity.
  - vm_compute. reflexivity.
  - reflexivity.
  - reflexivity.
Defined.

Lemma build_percent_result_nan_real_mean_witness :
  build_percent_result ex_nan_real_mean ex_all_ones ex_shuffled
    [mkInteraction 1 "g1" "g2"] [("cluster1", "cluster2")%string]
    (build_result_matrix ex_interactions ex_pairs) = Raise UnboundLocalError.
Proof.
  apply (build_percent_result_nan_real_mean
           ex_nan_real_mean ex_all_ones ex_shuffled
           [mkInteraction 1 "g1" "g2"] [("cluster1", "cluster2")%string]
           (build_result_matrix ex_interactions ex_pairs)
           [] (mkInteraction 1 "g1" "g2", ("cluster1", "cluster2")%string) []
           (Fin 1) 1 [Fin (1 # 10); Fin (2 # 5)]).
  - reflexivity.
  - vm_compute. reflexivity.
  - vm_compute. reflexivity.
  - reflexivity.
  - lia.
  - vm_compute. reflexivity.
  - reflexivity.
Defined.

Lemma mean_analysis_scores_witness :
  ∃ res, mean_analysis ex_interactions ex_means ex_pairs
           (build_result_matrix ex_interactions ex_pairs) = Ok res ∧
         at_get res 1%nat "cluster1_cluster2" = Ok (Fin (1 # 4)) ∧
         at_get res 2%nat "cluster1_cluster1" = Ok NaN.
Proof.
  destruct (mean_analysis_scores ex_interactions ex_means ex_pairs
              (build_result_matrix ex_interactions ex_pairs))
    as ((res & Hrun & Hcells) & _).
  - vm_compute. reflexivity.
  - apply (bool_decide_unpack _). vm_compute. exact I.
  - exists res. split; [exact Hrun|]. split.
    + refine (proj2 (Hcells (mkInteraction 1 "g1" "g2") ("cluster1", "cluster2")%string
                       _ _ (Fin 0) (Fin (1 # 2)) _ _ _ _ _ _)).
      * left.
      * right. left.
      * vm_compute. reflexivity.
      * vm_compute. reflexivity.
      * vm_compute. reflexivity.
      * vm_compute. reflexivity.
    + refine (proj2 (Hcells (mkInteraction 2 "g2" "g3") ("cluster1", "cluster1")%string
                       _ _ (Fin 4) NaN _ _ _ _ _ _)).
      * right. left.
      * left.
      * vm_compute. reflexivity.
      * vm_compute. reflexivity.
      * vm_compute. reflexivity.
      * vm_compute. reflexivity.
Defined.

Lemma get_significant_means_masks_witness :
  ∃ sm, get_significant_means ex_real_mean ex_all_ones = Ok sm ∧
        at_get sm 1%nat "cluster1_cluster1" = Ok NaN.
Proof.
  destruct (proj1 get_significant_means_masks ex_real_mean ex_all_ones)
    as (sm & Hrun & Hcells).
  - intros i Hi. exact Hi.
  - exists sm. split; [exact Hrun|].
    refine (Hcells 1%nat "cluster1_cluster1"%string (Fin (1 # 2)) (Fin 1) _ _ _ _).
    + left.
    + left.
    + vm_compute. reflexivity.
    + vm_compute. reflexivity.
Defined.

Lemma build_clusters_special_values_propagate_witness :
  ∃ clusters de,
    build_clusters log2_approx ex_meta ex_counts = Ok clusters ∧
    means clusters !! "B"%string = Some de ∧
    de !! "g1"%string = Some NaN.
Proof.
  destruct (proj1 build_clusters_special_values_propagate log2_approx ex_meta ex_counts)
    as (clusters & Hrun & Hempty).
  - apply (bool_decide_unpack _). vm_compute. exact I.
  - apply (bool_decide_unpack _). vm_compute. exact I.
  - apply (bool_decide_unpack _). vm_compute. exact I.
  - destruct (build_clusters_inv _ _ _ _ Hrun) as (Hnames & Hgroups & _).
    destruct (Hempty "B"%string "normal"%string) as (_ & Hde).
    + rewrite Hnames. apply (bool_decide_unpack _). vm_compute. exact I.
    + rewrite Hgroups. apply (bool_decide_unpack _). vm_compute. exact I.
    + reflexivity.
    + destruct (Hde (or_intror eq_refl)) as (de & Hmeans & Hgenes).
      exists clusters, de. split; [exact Hrun|]. split; [exact Hmeans|].
      apply Hgenes. apply (bool_decide_unpack _). vm_compute. exact I.
Defined.

Lemma tumor_and_normal_are_hard_coded_witness :
  build_clusters log2_approx ex_meta_case_control ex_counts = Raise KeyError.
Proof.
  apply (proj1 tumor_and_normal_are_hard_coded).
  - discriminate.
  - intros [Ht _]. revert Ht. apply (bool_decide_eq_false_1 _). vm_compute. reflexivity.
Defined.

Lemma lcg_interval_bound (max : nat) (g : N) : ((lcg_interval max g).1 ≤ max)%nat.
Proof.
  unfold lcg_interval. cbn [fst].
  assert (g mod N.of_nat (max + 1) < N.of_nat (max + 1))%N by (apply N.mod_lt; lia).
  lia.
Qed.

Lemma shuffle_meta_permutes_a_copy_witness :
  ∃ meta_copy w' m',
    shuffle_meta N lcg_interval 0%nat (mkWorld {[0%nat := ex_meta]} 2024%N)
    = Some (meta_copy, w') ∧
    meta_copy ≠ 0%nat ∧
    frames w' !! 0%nat = Some ex_meta ∧
    frames w' !! meta_copy = Some m' ∧
    cell_type <$> m' ≡ₚ cell_type <$> ex_meta ∧
    group <$> m' = group <$> ex_meta.
Proof.
  destruct (shuffle_meta_permutes_a_copy N lcg_interval lcg_interval_bound
              (mkWorld {[0%nat := ex_meta]} 2024%N) 0%nat ex_meta)
    as (meta_copy & w' & m' & Hrun & Hne & Hold & _ & Hnew & Hperm & Hgroup & _).
  - reflexivity.
  - exists meta_copy, w', m'. repeat split; assumption.
Defined.

(** * Further properties *)

(** ** [get_cluster_combinations] *)

Lemma ascii_compare_refl (c : Ascii.ascii) : Ascii.compare c c = Eq.
Proof. unfold Ascii.compare. apply N.compare_refl. Qed.

Lemma ascii_compare_Lt_trans (a b c : Ascii.ascii) :
  Ascii.compare a b = Lt → Ascii.compare b c = Lt → Ascii.compare a c = Lt.
Proof. unfold Ascii.compare. rewrite !N.compare_lt_iff. lia. Qed.

Lemma string_compare_refl (s : string) : String.compare s s = Eq.
Proof. induction s as [|c s IH]; simpl; [done|]. by rewrite ascii_compare_refl. Qed.

Lemma string_compare_Lt_trans (s1 s2 s3 : string) :
  String.compare s1 s2 = Lt → String.compare s2 s3 = Lt → String.compare s1 s3 = Lt.
Proof.
  revert s2 s3. induction s1 as [|c1 s1 IH]; intros [|c2 s2] [|c3 s3]; simpl; try done.
  destruct (Ascii.compare c1 c2) eqn:E12; try done;
    destruct (Ascii.compare c2 c3) eqn:E23; try done.
  - apply Ascii.compare_eq_iff in E12 as ->, E23 as ->.
    rewrite ascii_compare_refl. apply IH.
  - apply Ascii.compare_eq_iff in E12 as ->. by rewrite E23.
  - apply Ascii.compare_eq_iff in E23 as <-. by rewrite E12.
  - by rewrite (ascii_compare_Lt_trans _ _ _ E12 E23).
Qed.

Lemma string_leb_trans (s1 s2 s3 : string) :
  String.leb s1 s2 = true → String.leb s2 s3 = true → String.leb s1 s3 = true.
Proof.
  unfold String.leb.
  destruct (String.compare s1 s2) eqn:E12; try done;
    destruct (String.compare s2 s3) eqn:E23; try done; intros _ _.
  - apply String.compare_eq_iff in E12 as ->. by rewrite E23.
  - apply String.compare_eq_iff in E12 as ->. by rewrite E23.
  - apply String.compare_eq_iff in E23 as <-. by rewrite E12.
  - by rewrite (string_compare_Lt_trans _ _ _ E12 E23).
Qed.

#[export] Instance tuple_le_total : Total tuple_le.
Proof.
  intros [a b] [c d]. unfold tuple_le, tuple_leb. cbn [fst snd].
  rewrite (String.compare_antisym c a).
  destruct (String.compare a c); simpl; auto. apply String.leb_total.
Qed.

#[export] Instance tuple_le_trans : Transitive tuple_le.
Proof.
  intros [a b] [c d] [e f]. unfold tuple_le, tuple_leb. cbn [fst snd].
  destruct (String.compare a c) eqn:E1; try done;
    destruct (String.compare c e) eqn:E2; try done.
  - apply String.compare_eq_iff in E1 as ->, E2 as ->.
    rewrite string_compare_refl. apply string_leb_trans.
  - apply String.compare_eq_iff in E1 as ->. by rewrite E2.
  - apply String.compare_eq_iff in E2 as <-. by rewrite E1.
  - by rewrite (string_compare_Lt_trans _ _ _ E1 E2).
Qed.

#[export] Instance tuple_le_antisym : AntiSymm (=) tuple_le.
Proof.
  intros [a b] [c d]. unfold tuple_le, tuple_leb. cbn [fst snd].
  rewrite (String.compare_antisym c a).
  destruct (String.compare a c) eqn:E; simpl; try done.
  apply String.compare_eq_iff in E as ->. intros H1 H2.
  by rewrite (String.leb_antisym _ _ H1 H2).
Qed.

Lemma elem_of_product2 (cluster_names : list string) (a b : string) :
  (a, b) ∈ product2 cluster_names ↔ a ∈ cluster_names ∧ b ∈ cluster_names.
Proof.
  unfold product2. rewrite list_elem_of_bind. split.
  - intros (x & Hin & Hx). apply list_elem_of_fmap in Hin as (y & [= -> ->] & Hy). done.
  - intros [Ha Hb]. exists a. split; [|done]. apply list_elem_of_fmap. eauto.
Qed.

Lemma length_pairs {A B : Type} (l1 : list A) (l2 : list B) :
  length (x ← l1; pair x <$> l2) = (length l1 * length l2)%nat.
Proof.
  induction l1 as [|x l1 IH]; [done|].
  cbn [mbind list_bind]. simpl. rewrite length_app, length_fmap. f_equal. apply IH.
Qed.

(** The cluster pairs are all the ordered pairs of cluster names, each as
    often as [itertools.product] gives it. *)
Theorem get_cluster_combinations_pairs (cluster_names : list string) :
  get_cluster_combinations cluster_names ≡ₚ product2 cluster_names ∧
  (∀ a b, (a, b) ∈ get_cluster_combinations cluster_names ↔
          a ∈ cluster_names ∧ b ∈ cluster_names) ∧
  length (get_cluster_combinations cluster_names)
  = (length cluster_names * length cluster_names)%nat.
Proof.
  assert (Hperm : get_cluster_combinations cluster_names ≡ₚ product2 cluster_names)
    by apply merge_sort_Permutation.
  split; [done|]. split.
  - intros a b. rewrite Hperm. apply elem_of_product2.
  - rewrite (Permutation_length Hperm). apply length_pairs.
Qed.

(** The cluster pairs come in Python's order of tuples, and they are the
    only arrangement of the product that is in that order. *)
Theorem get_cluster_combinations_sorted (cluster_names : list string) :
  StronglySorted tuple_le (get_cluster_combinations cluster_names) ∧
  ∀ l, l ≡ₚ product2 cluster_names → Sorted tuple_le l →
       l = get_cluster_combinations cluster_names.
Proof.
  split; [apply StronglySorted_merge_sort; apply _|].
  intros l Hperm Hsorted.
  apply (Sorted_unique tuple_le); [done|apply Sorted_merge_sort, _|].
  rewrite Hperm. symmetry. apply merge_sort_Permutation.
Qed.

(** ** Column keys *)

Lemma cluster_interaction_string_inj_aux (a a' b b' : string) :
  no_underscore a = true → no_underscore a' = true →
  (a +:+ "_" +:+ b)%string = (a' +:+ "_" +:+ b')%string → a = a' ∧ b = b'.
Proof.
  revert a'. induction a as [|c a IH]; intros [|c' a']; simpl.
  - intros _ _ E. injection E as E. by subst.
  - intros _ Hc' E. injection E as E _. subst c'. done.
  - intros Hc _ E. injection E as E _. subst c. done.
  - intros [_ Ha]%andb_true_iff [_ Ha']%andb_true_iff E.
    injection E as Ec Hrest. subst c'.
    destruct (IH a' Ha Ha' Hrest) as [E1 E2]. by subst.
Qed.

Lemma pairs_NoDup {A B : Type} (l1 : list A) (l2 : list B) :
  NoDup l1 → NoDup l2 → NoDup (x ← l1; pair x <$> l2).
Proof.
  intros H1 H2. apply NoDup_bind; [|intros x _; by apply (NoDup_fmap_2 _)|done].
  intros x1 x2 y _ _ (b1 & -> & _)%list_elem_of_fmap (b2 & [= -> _] & _)%list_elem_of_fmap.
  done.
Qed.

Lemma cell_key_all_cells interactions cis :
  cell_key <$> all_cells interactions cis =
  i ← interaction_index <$> interactions;
  pair i <$> (cluster_interaction_string <$> cis).
Proof.
  unfold all_cells. induction interactions as [|x l IH]; [done|].
  cbn [mbind list_bind fmap list_fmap]. simpl. rewrite fmap_app. f_equal; [|apply IH].
  rewrite <- !list_fmap_compose. done.
Qed.

(** The column key of a cluster pair determines the pair as long as the
    first name of the pair has no underscore.  With underscores two pairs
    can share their column: ('a_b', 'c') and ('a', 'b_c') do. *)
Theorem cluster_interaction_string_injective :
  (∀ x y : string * string,
     no_underscore x.1 = true → no_underscore y.1 = true →
     cluster_interaction_string x = cluster_interaction_string y → x = y) ∧
  cluster_interaction_string ("a_b", "c")%string
  = cluster_interaction_string ("a", "b_c")%string.
Proof.
  split; [|done]. intros [a b] [a' b'] Ha Ha' Heq.
  destruct (cluster_interaction_string_inj_aux a a' b b' Ha Ha' Heq) as [-> ->]. done.
Qed.

(** The cells of a table built over the combinations of distinct
    underscore-free cluster names, for interactions with distinct indices,
    have distinct keys: no two cells share a place in the table. *)
Theorem result_cells_have_distinct_keys interactions (cluster_names : list string) :
  NoDup (interaction_index <$> interactions) →
  NoDup cluster_names →
  forallb no_underscore cluster_names = true →
  NoDup (cell_key <$> all_cells interactions (get_cluster_combinations cluster_names)).
Proof.
  intros Hidx Hnames Hclean. rewrite cell_key_all_cells.
  apply pairs_NoDup; [done|].
  assert (Hperm : get_cluster_combinations cluster_names ≡ₚ product2 cluster_names)
    by apply merge_sort_Permutation.
  apply NoDup_fmap_2_strong.
  - intros [a b] [a' b'] Hab Hab' Heq.
    rewrite Hperm in Hab, Hab'.
    apply elem_of_product2 in Hab as [Ha _], Hab' as [Ha' _].
    rewrite forallb_forall in Hclean.
    destruct (cluster_interaction_string_inj_aux a a' b b') as [-> ->]; [..|done|done];
      by apply Hclean, list_elem_of_In.
  - rewrite Hperm. by apply pairs_NoDup.
Qed.

(** ** When [mean_analysis] returns *)

Lemma cluster_interaction_mean_KeyError ci interaction (means : gmap string Series) e :
  cluster_interaction_mean ci interaction means = Raise e → e = KeyError.
Proof.
  unfold cluster_interaction_mean, dict_get.
  repeat (case_match; cbn [rbind]); congruence.
Qed.

Lemma mean_loop_is_ok means (cells : list (Interaction * (string * string))) res :
  is_ok (for_each cells (mean_cell means) res) =
  forallb (λ cl, is_ok (cluster_interaction_mean cl.2 cl.1 means)) cells ∧
  ∀ e, for_each cells (mean_cell means) res = Raise e → e = KeyError.
Proof.
  revert res. induction cells as [|cl cells IH]; intros res; [done|].
  cbn [for_each forallb]. unfold mean_cell at 1 3.
  destruct (cluster_interaction_mean cl.2 cl.1 means) as [v|e'] eqn:Ev; cbn [rbind is_ok].
  - apply IH.
  - split; [done|]. intros e [= <-]. by apply cluster_interaction_mean_KeyError in Ev.
Qed.


(** ** Rows and columns of the result tables *)

Lemma add_label_present {A : Type} `{EqDecision A} (x : A) (l : list A) :
  x ∈ l → add_label x l = l.
Proof. intros Hx. unfold add_label. by rewrite bool_decide_eq_true_2. Qed.

Lemma at_set_labels {R : Type} `{Countable R} (df : Frame R) i c v :
  i ∈ df_index df → c ∈ df_columns df →
  df_index (at_set df i c v) = df_index df ∧
  df_columns (at_set df i c v) = df_columns df.
Proof. intros Hi Hc. simpl. by rewrite !add_label_present. Qed.

(** A loop whose body, when it returns, has written to a cell of the
    table, leaves the labels of the table alone. *)
Lemma loop_keeps_labels {X S : Type} (table : S → Frame nat) (key : X → nat * string)
    (body : S → X → result S) (cells : list X) (index : list nat)
    (columns : list string) :
  (∀ cl, cl ∈ cells → (key cl).1 ∈ index ∧ (key cl).2 ∈ columns) →
  (∀ st cl st', body st cl = Ok st' →
     ∃ v, table st' = at_set (table st) (key cl).1 (key cl).2 v) →
  ∀ st st', for_each cells body st = Ok st' →
    df_index (table st) = index → df_columns (table st) = columns →
    df_index (table st') = index ∧ df_columns (table st') = columns.
Proof.
  intros Hkeys Hbody. induction cells as [|cl cells IH]; intros st st'; cbn [for_each].
  { by intros [= <-]. }
  intros (st1 & Hstep & Hrun)%rbind_Ok Hi Hc.
  destruct (Hbody _ _ _ Hstep) as [v Hv].
  destruct (Hkeys cl) as [Hki Hkc]; [left|].
  destruct (at_set_labels (table st) (key cl).1 (key cl).2 v) as [Hi1 Hc1];
    [by rewrite Hi|by rewrite Hc|].
  apply (IH (λ cl' Hcl', Hkeys cl' (list_elem_of_further _ _ _ Hcl')) st1 st' Hrun).
  - by rewrite Hv, Hi1.
  - by rewrite Hv, Hc1.
Qed.

Lemma template_has_cells interactions cis cl :
  cl ∈ all_cells interactions cis →
  (cell_key cl).1 ∈ interaction_index <$> interactions ∧
  (cell_key cl).2 ∈ cluster_interaction_string <$> cis.
Proof.
  destruct cl as [interaction ci]. intros [Hi Hc]%elem_of_all_cells.
  split; apply list_elem_of_fmap; eauto.
Qed.

(** Every scoring pass over the template of [build_result_matrix] returns
    a table with the rows and the columns of the template: the tables of
    the real run and of every permutation line up. *)
Theorem result_tables_keep_the_template interactions cis :
  let base := build_result_matrix interactions cis in
  let same (res : Frame nat) :=
    df_index res = interaction_index <$> interactions ∧
    df_columns res = cluster_interaction_string <$> cis in
  (∀ means res, mean_analysis interactions means cis base = Ok res → same res) ∧
  (∀ clusters threshold res,
     percent_analysis clusters threshold interactions cis base = Ok res → same res) ∧
  (∀ rm rp stat res,
     build_percent_result rm rp stat interactions cis base = Ok res → same res).
Proof.
  cbn zeta. split; [|split].
  - intros means res. rewrite mean_analysis_flat. intros Hrun.
    apply (loop_keeps_labels (λ t, t) cell_key (mean_cell means)
             (all_cells interactions cis) _ _
             (template_has_cells interactions cis)) with (st := build_result_matrix interactions cis);
      [|done..].
    intros st cl st'. unfold mean_cell. intros (v & _ & [= <-])%rbind_Ok. by exists v.
  - intros clusters threshold res. unfold percent_analysis.
    intros (percents & _ & Hrun)%rbind_Ok.
    rewrite (for_each_nested interactions cis
               (λ interaction res ci,
                  do interaction_percent <-
                    cluster_interaction_percent ci interaction percents;
                  Ok (at_set res (interaction_index interaction)
                        (cluster_interaction_string ci)
                        (Fin (inject_Z interaction_percent))))) in Hrun.
    apply (loop_keeps_labels (λ t, t) cell_key _
             (all_cells interactions cis) _ _
             (template_has_cells interactions cis)) with (st := build_result_matrix interactions cis)
      in Hrun; [done| |done..].
    intros st cl st'. cbn beta. intros (v & _ & [= <-])%rbind_Ok.
    by exists (Fin (inject_Z v)).
  - intros rm rp stat res. unfold build_percent_result.
    intros (st' & Hrun & [= <-])%rbind_Ok. rewrite percent_loop_flat in Hrun.
    apply (loop_keeps_labels percent_result cell_key _
             (all_cells interactions cis) _ _
             (template_has_cells interactions cis)) in Hrun; [done| |done..].
    intros st cl st1. unfold percent_cell.
    intros (o & _ & (v & _ & [= <-])%rbind_Ok)%rbind_Ok. by exists v.
Qed.

(** ** Range of the p-values *)

Lemma filter_length_bound {A : Type} (P : A → bool) (l : list A) :
  (length (List.filter P l) ≤ length l)%nat.
Proof. induction l as [|x l IH]; simpl; [done|]. destruct (P x); simpl; lia. Qed.

Lemma two_tails_range (a n : nat) :
  (a ≤ n)%nat → n ≠ O →
  fle (Fin 0) (fmul (fin (of_nat a / of_nat n)) (Fin 2)) = true ∧
  fle (fmul (fin (of_nat a / of_nat n)) (Fin 2)) (Fin 2) = true.
Proof.
  intros Han Hn. split.
  - change (Fin 0) with (fmul (fin (of_nat 0 / of_nat n)) (Fin 2)).
    apply two_tails_le. lia.
  - replace (Fin 2) with (fmul (fin (of_nat n / of_nat n)) (Fin 2)) at 2.
    + by apply two_tails_le.
    + by rewrite of_nat_ratio_one.
Qed.

Lemma tail_fraction_range m means prev o :
  (∀ p, prev = Some p → fle (Fin 0) p = true ∧ fle p (Fin 2) = true) →
  tail_fraction m means prev = Ok o →
  ∀ p, o = Some p → fle (Fin 0) p = true ∧ fle p (Fin 2) = true.
Proof.
  intros Hprev. unfold tail_fraction.
  destruct (length (not_nan means)) as [|n] eqn:En.
  { destruct (fgt m (Fin 0)); [done|]. destruct (flt m (Fin 0)); [done|].
    by intros [= <-]. }
  rewrite <- En.
  destruct (fgt m (Fin 0)).
  - rewrite py_truediv_pos by lia. intros [= <-] p [= <-].
    apply two_tails_range; [apply filter_length_bound|lia].
  - destruct (flt m (Fin 0)).
    + rewrite py_truediv_pos by lia. intros [= <-] p [= <-].
      apply two_tails_range; [apply filter_length_bound|lia].
    + by intros [= <-].
Qed.

Lemma result_percent_at_range rm rp stat prev i c o :
  (∀ p, prev = Some p → fle (Fin 0) p = true ∧ fle p (Fin 2) = true) →
  result_percent_at rm rp stat prev i c = Ok o →
  ∀ p, o = Some p → fle (Fin 0) p = true ∧ fle p (Fin 2) = true.
Proof.
  intros Hprev. unfold result_percent_at.
  intros (m & _ & (f & _ & (flag & _ & Hrest)%rbind_Ok)%rbind_Ok)%rbind_Ok.
  destruct (_ || _).
  - injection Hrest as <-. by intros p [= <-].
  - apply rbind_Ok in Hrest as (means & _ & Htail).
    by apply (tail_fraction_range _ _ _ _ Hprev Htail).
Qed.

(** Whatever the tables hold, every cell that [build_percent_result]
    visited holds a value between 0 and 2 when the call returns. *)
Theorem build_percent_result_range rm rp stat interactions cis base pvalues :
  build_percent_result rm rp stat interactions cis base = Ok pvalues →
  ∀ interaction ci, interaction ∈ interactions → ci ∈ cis →
    ∃ p, at_get pvalues (interaction_index interaction) (cluster_interaction_string ci)
         = Ok p ∧
         fle (Fin 0) p = true ∧ fle p (Fin 2) = true.
Proof.
  unfold build_percent_result. intros (st' & Hrun & [= <-])%rbind_Ok.
  rewrite percent_loop_flat in Hrun.
  assert (Hloop : ∀ cells st st',
    for_each cells (λ st cl, percent_cell rm rp stat cl.1 st cl.2) st = Ok st' →
    (∀ p, result_percent st = Some p → fle (Fin 0) p = true ∧ fle p (Fin 2) = true) →
    ∀ k, (k ∈ cell_key <$> cells ∨
          ∃ p, at_get (percent_result st) k.1 k.2 = Ok p ∧
               fle (Fin 0) p = true ∧ fle p (Fin 2) = true) →
         ∃ p, at_get (percent_result st') k.1 k.2 = Ok p ∧
              fle (Fin 0) p = true ∧ fle p (Fin 2) = true).
  { clear. induction cells as [|cl cells IH]; intros st st'; cbn [for_each].
    { intros [= <-] _ k [Hk|Hk]; [by apply elem_of_nil in Hk|done]. }
    intros (st1 & Hstep & Hrun)%rbind_Ok Hprev k Hk.
    unfold percent_cell in Hstep.
    apply rbind_Ok in Hstep as (o & Ho & (v & Hv & [= <-])%rbind_Ok).
    pose proof (result_percent_at_range _ _ _ _ _ _ _ Hprev Ho) as Hrange.
    destruct o as [p|]; [injection Hv as <-|done].
    apply (IH _ _ Hrun); [exact Hrange|]. cbn [percent_result].
    destruct (decide (cell_key cl = k)) as [<-|Hne].
    - right. exists p. split; [apply at_get_at_set_eq|by apply Hrange].
    - rewrite fmap_cons, elem_of_cons in Hk. destruct Hk as [[Hk|Hk]|(q & Hq & Hr)].
      + congruence.
      + by left.
      + right. exists q. split; [|done]. apply at_get_at_set_ne; [|done].
        destruct k as [i c]. intros E. by apply Hne. }
  intros interaction ci Hi Hc.
  apply (Hloop _ _ _ Hrun (λ p (H : None = Some p), ltac:(discriminate))
           (cell_key (interaction, ci))).
  left. apply list_elem_of_fmap. exists (interaction, ci).
  split; [done|]. by apply elem_of_all_cells.
Qed.

Lemma tail_fraction_monotone_negative means prev m1 m2 :
  flt m1 m2 = true → flt m2 (Fin 0) = true →
  match tail_fraction m1 means prev, tail_fraction m2 means prev with
  | Ok (Some p1), Ok (Some p2) => fle p1 p2 = true
  | Raise e1, Raise e2 => e1 = e2
  | _, _ => False
  end.
Proof.
  intros H12 H2. pose proof (flt_trans _ _ _ H12 H2) as H1.
  unfold tail_fraction, fgt. rewrite (flt_asym _ _ H1), (flt_asym _ _ H2), H1, H2.
  destruct (length (not_nan means)) as [|n] eqn:En; simpl; [done|].
  apply two_tails_le, filter_length_le.
  intros x Hx. by apply (flt_trans x m1 m2).
Qed.

(** Below zero the p-value grows with the real mean: for [m1 < m2 < 0]
    and the same shuffled means the two runs of the loop body end the same
    way, and the p-value of [m1] is at most the one of [m2]. *)
Theorem pvalue_monotone_in_negative_real_mean rm1 rm2 rp stat prev i c m1 m2 :
  at_get rm1 i c = Ok m1 → at_get rm2 i c = Ok m2 →
  flt m1 m2 = true → flt m2 (Fin 0) = true →
  match result_percent_at rm1 rp stat prev i c,
        result_percent_at rm2 rp stat prev i c with
  | Ok (Some p1), Ok (Some p2) => fle p1 p2 = true
  | Raise e1, Raise e2 => e1 = e2
  | _, _ => False
  end.
Proof.
  intros E1 E2 H12 H2. pose proof (flt_trans _ _ _ H12 H2) as H1.
  unfold result_percent_at. rewrite E1, E2. simpl rbind.
  destruct (at_get rp i c) as [f|]; simpl rbind; [|done].
  destruct (py_int f) as [flag|]; simpl rbind; [|done].
  rewrite (flt_feq_false _ _ H1), (flt_feq_false _ _ H2), !orb_false_r.
  destruct (flag =? 0).
  { simpl. by apply Qle_bool_iff. }
  destruct (shuffled_means stat i c) as [means|]; simpl rbind; [|done].
  by apply tail_fraction_monotone_negative.
Qed.

(** ** A real percent that is not a number *)

(** When the first cell has a real mean but its real percent is NaN, as
    in a percent table that was never filled, [int] fails and the call
    raises [ValueError]; an infinite real percent gives [OverflowError]. *)
Theorem build_percent_result_bad_flag
    rm rp stat interaction interactions ci cis base m f :
  at_get rm (interaction_index interaction) (cluster_interaction_string ci) = Ok m →
  at_get rp (interaction_index interaction) (cluster_interaction_string ci) = Ok f →
  (f = NaN →
     build_percent_result rm rp stat (interaction :: interactions) (ci :: cis) base
     = Raise ValueError) ∧
  (f = PInf ∨ f = NInf →
     build_percent_result rm rp stat (interaction :: interactions) (ci :: cis) base
     = Raise OverflowError).
Proof.
  intros Hm Hf.
  assert (Hcell : ∀ st,
            percent_cell rm rp stat interaction st ci =
            do flag <- py_int f;
            do rp' <- (if (flag =? 0) || feq m (Fin 0) then Ok (Some (Fin 1))
                       else do mean_per_pair <-
                              shuffled_means stat (interaction_index interaction)
                                (cluster_interaction_string ci);
                            tail_fraction m mean_per_pair (result_percent st));
            do v <- load_local rp';
            Ok {| percent_result :=
                    at_set (percent_result st) (interaction_index interaction)
                      (cluster_interaction_string ci) v;
                  result_percent := rp' |}).
  { intros st. unfold percent_cell, result_percent_at. rewrite Hm, Hf. cbn [rbind].
    by destruct (py_int f). }
  unfold build_percent_result, percent_loop. cbn [for_each]. rewrite Hcell.
  split; [intros ->|intros [-> | ->]]; reflexivity.
Qed.

(** ** Rows missing from the p-values *)

Lemma significant_loop_inv pv (cells : list (nat * string)) sm sm' :
  for_each cells (significant_cell pv) sm = Ok sm' →
  ∀ cl, cl ∈ cells → is_ok (at_get pv cl.1 cl.2) = true.
Proof.
  revert sm. induction cells as [|cl0 cells IH]; intros sm; cbn [for_each].
  { intros _ cl Hcl. by apply elem_of_nil in Hcl. }
  unfold significant_cell at 1.
  intros (sm1 & (p & Hp & _)%rbind_Ok & Hrun)%rbind_Ok cl [->|Hcl]%elem_of_cons.
  - by rewrite Hp.
  - by apply (IH _ Hrun).
Qed.

Lemma significant_loop_KeyError pv (cells : list (nat * string)) sm e :
  for_each cells (significant_cell pv) sm = Raise e → e = KeyError.
Proof.
  revert sm. induction cells as [|cl0 cells IH]; intros sm; cbn [for_each]; [done|].
  unfold significant_cell at 1. unfold at_get.
  destruct (has_cell pv cl0.1 cl0.2); cbn [rbind]; [apply IH|congruence].
Qed.

(** [get_significant_means] raises [KeyError] when the p-value table has
    a column and lacks one of the rows of the real means. *)
Theorem get_significant_means_missing_row real pv i :
  i ∈ df_index real → i ∉ df_index pv → df_columns pv ≠ [] →
  get_significant_means real pv = Raise KeyError.
Proof.
  intros Hi Hno Hcols. rewrite get_significant_means_flat.
  destruct (for_each _ _ real) as [sm|e] eqn:Hrun.
  - exfalso. destruct (df_columns pv) as [|c cols] eqn:Ec; [done|].
    assert (Hok : is_ok (at_get pv i c) = true).
    { apply (significant_loop_inv _ _ _ _ Hrun (i, c)).
      apply list_elem_of_bind. exists i. split; [|done]. left. }
    unfold at_get, has_cell in Hok.
    by rewrite (bool_decide_eq_false_2 (i ∈ df_index pv)) in Hok.
  - by apply significant_loop_KeyError in Hrun as ->.
Qed.

(** ** [counts_percent] on a Series *)

Lemma flt_fle_trans (x y z : npfloat) :
  flt x y = true → fle y z = true → flt x z = true.
Proof.
  destruct x, y, z; simpl; try done.
  rewrite !negb_true_iff, <- !not_true_iff_false, !Qle_bool_iff.
  intros H1 H2 H3. apply H1. by apply (Qle_trans _ q1).
Qed.

(** On an empty Series [counts_percent] raises [ZeroDivisionError].  On
    any other it answers 0 or 1; against a finite threshold [t] it answers
    1 exactly when the number of positive entries is below [t] times the
    number of entries, and a flag that is 1 stays 1 under any larger
    threshold. *)
Theorem counts_percent_series (counts : list npfloat) :
  (counts = [] → ∀ threshold, counts_percent counts threshold = Raise ZeroDivisionError) ∧
  (counts ≠ [] →
     (∀ threshold, counts_percent counts threshold = Ok 0 ∨
                   counts_percent counts threshold = Ok 1) ∧
     (∀ t : Q, counts_percent counts (Fin t) = Ok 1 ↔
               (of_nat (length (List.filter (λ x, fgt x (Fin 0)) counts))
                < t * of_nat (length counts))%Q) ∧
     (∀ t1 t2, fle t1 t2 = true → counts_percent counts t1 = Ok 1 →
               counts_percent counts t2 = Ok 1)).
Proof.
  unfold counts_percent. cbn [py_len positive_part series_counts]. split.
  { by intros ->. }
  intros Hne. assert (Hlen : length counts ≠ O) by by destruct counts.
  rewrite py_truediv_pos by done. cbn [rbind]. split; [|split].
  - intros threshold. destruct (flt _ threshold); auto.
  - intros t. set (k := length (List.filter _ counts)).
    assert (Hpos : (0 < of_nat (length counts))%Q).
    { unfold of_nat. rewrite <- (Zlt_Qlt 0). lia. }
    unfold fin. cbn [flt]. destruct (Qle_bool t _) eqn:E; cbn [negb].
    + split; [done|]. intros Hlt. exfalso.
      apply Qle_bool_iff in E. rewrite Qred_correct in E.
      apply (Qmult_le_compat_r _ _ (of_nat (length counts))) in E;
        [|by apply Qlt_le_weak].
      unfold Qdiv in E. rewrite <- Qmult_assoc, (Qmult_comm (/ _)), Qmult_inv_r,
        Qmult_1_r in E by (intros E0; rewrite E0 in Hpos; by apply Qlt_irrefl in Hpos).
      by apply (Qlt_not_le _ _ Hlt).
    + split; [|done]. intros _.
      apply not_true_iff_false in E. rewrite Qle_bool_iff, Qred_correct in E.
      apply Qnot_le_lt in E.
      apply (Qmult_lt_compat_r _ _ (of_nat (length counts))) in E; [|done].
      unfold Qdiv in E. rewrite <- Qmult_assoc, (Qmult_comm (/ _)), Qmult_inv_r,
        Qmult_1_r in E by (intros E0; rewrite E0 in Hpos; by apply Qlt_irrefl in Hpos).
      done.
  - intros t1 t2 Ht. destruct (flt _ t1) eqn:E1; [|done]. intros _.
    by rewrite (flt_fle_trans _ _ _ E1 Ht).
Qed.

(** ** The table of [percent_analysis] *)

(** When every write of a loop puts a value with the property [P] into
    the cell of its item, the cells of all items have [P] at the end. *)
Lemma loop_cells_satisfy {X S : Type} (table : S → Frame nat) (key : X → nat * string)
    (body : S → X → result S) (P : npfloat → Prop) (cells : list X) :
  (∀ st cl st', body st cl = Ok st' →
     ∃ v, P v ∧ table st' = at_set (table st) (key cl).1 (key cl).2 v) →
  ∀ st st', for_each cells body st = Ok st' →
    ∀ k, (k ∈ key <$> cells ∨ ∃ v, at_get (table st) k.1 k.2 = Ok v ∧ P v) →
         ∃ v, at_get (table st') k.1 k.2 = Ok v ∧ P v.
Proof.
  intros Hbody. induction cells as [|cl cells IH]; intros st st'; cbn [for_each].
  { intros [= <-] k [Hk|Hk]; [by apply elem_of_nil in Hk|done]. }
  intros (st1 & Hstep & Hrun)%rbind_Ok k Hk.
  destruct (Hbody _ _ _ Hstep) as (v & Hv & Htable).
  apply (IH _ _ Hrun). rewrite Htable.
  destruct (decide (key cl = k)) as [<-|Hne].
  - right. exists v. split; [apply at_get_at_set_eq|done].
  - rewrite fmap_cons, elem_of_cons in Hk. destruct Hk as [[Hk|Hk]|(q & Hq & Hr)].
    + congruence.
    + by left.
    + right. exists q. split; [|done]. apply at_get_at_set_ne; [|done].
      destruct k, (key cl). exact Hne.
Qed.

(** Every cell that [percent_analysis] visited holds the flag 0 or the
    flag 1 when the call returns. *)
Theorem percent_analysis_flags clusters threshold interactions cis base res :
  percent_analysis clusters threshold interactions cis base = Ok res →
  ∀ interaction ci, interaction ∈ interactions → ci ∈ cis →
    at_get res (interaction_index interaction) (cluster_interaction_string ci)
      = Ok (Fin 0) ∨
    at_get res (interaction_index interaction) (cluster_interaction_string ci)
      = Ok (Fin 1).
Proof.
  unfold percent_analysis. intros (percents & _ & Hrun)%rbind_Ok.
  rewrite (for_each_nested interactions cis
             (λ interaction res ci,
                do interaction_percent <-
                  cluster_interaction_percent ci interaction percents;
                Ok (at_set res (interaction_index interaction)
                      (cluster_interaction_string ci)
                      (Fin (inject_Z interaction_percent))))) in Hrun.
  intros interaction ci Hi Hc.
  eapply (loop_cells_satisfy (λ t : Frame nat, t) cell_key _
            (λ v, v = Fin 0 ∨ v = Fin 1)) with (k := cell_key (interaction, ci))
    in Hrun as (v & Hv & Hflag).
  - cbn [cell_key fst snd] in Hv. rewrite Hv. destruct Hflag as [-> | ->]; auto.
  - intros st cl st'. cbn beta. intros (z & Hz & [= <-])%rbind_Ok.
    exists (Fin (inject_Z z)). split; [|reflexivity].
    unfold cluster_interaction_percent in Hz.
    repeat (apply rbind_Ok in Hz as (? & _ & Hz)).
    destruct (_ || _); injection Hz as <-; auto.
  - left. apply list_elem_of_fmap. exists (interaction, ci).
    split; [done|]. by apply elem_of_all_cells.
Qed.

(** ** Selecting rows and columns *)

Lemma kept_row_value (values : gmap (string * string) npfloat) (kept : list string)
    (k : string * string) :
  k.1 ∈ kept →
  default NaN (filter (λ kv, kv.1.1 ∈ kept) values !! k) = default NaN (values !! k).
Proof.
  intros HP. destruct (values !! k) as [x|] eqn:E.
  - by rewrite (map_lookup_filter_Some_2 _ values k x E HP).
  - by rewrite (map_lookup_filter_None_2 _ values k (or_introl E)).
Qed.

Lemma kept_column_value (values : gmap (string * string) npfloat) (kept : list string)
    (k : string * string) :
  k.2 ∈ kept →
  default NaN (filter (λ kv, kv.1.2 ∈ kept) values !! k) = default NaN (values !! k).
Proof.
  intros HP. destruct (values !! k) as [x|] eqn:E.
  - by rewrite (map_lookup_filter_Some_2 _ values k x E HP).
  - by rewrite (map_lookup_filter_None_2 _ values k (or_introl E)).
Qed.

Lemma at_get_select_rows counts kept gene c :
  gene ∈ kept → gene ∈ df_index counts →
  at_get (select_rows counts kept) gene c = at_get counts gene c.
Proof.
  intros Hk Hg. unfold at_get, has_cell, select_rows.
  cbn [df_index df_columns df_values].
  rewrite !(bool_decide_eq_true_2 (gene ∈ _)) by done.
  by rewrite (kept_row_value (df_values counts) kept (gene, c)).
Qed.

Lemma row_values_select_rows counts kept gene :
  gene ∈ kept → row_values (select_rows counts kept) gene = row_values counts gene.
Proof.
  intros Hk. unfold row_values, select_rows. cbn [df_columns df_values].
  apply list_fmap_ext. intros _ c _. cbn beta.
  by rewrite (kept_row_value (df_values counts) kept (gene, c)).
Qed.

Lemma at_get_select_columns counts cells gene x :
  x ∈ cells → x ∈ df_columns counts →
  at_get (select_columns counts cells) gene x = at_get counts gene x.
Proof.
  intros Hx Hc. unfold at_get, has_cell, select_columns.
  cbn [df_index df_columns df_values].
  rewrite !(bool_decide_eq_true_2 (x ∈ _)) by done.
  by rewrite (kept_column_value (df_values counts) cells (gene, x)).
Qed.

Lemma elem_of_List_filter {A : Type} (P : A → bool) (l : list A) (x : A) :
  x ∈ List.filter P l ↔ x ∈ l ∧ P x = true.
Proof. rewrite !list_elem_of_In. apply filter_In. Qed.

Lemma NoDup_List_filter {A : Type} (P : A → bool) (l : list A) :
  NoDup l → NoDup (List.filter P l).
Proof. rewrite !NoDup_ListNoDup. apply List.NoDup_filter. Qed.

Lemma NoDup_drop_duplicates_from (seen l : list string) :
  NoDup (drop_duplicates_from seen l).
Proof.
  revert seen. induction l as [|x l IH]; intros seen; simpl; [constructor|].
  destruct (bool_decide (x ∈ seen)); [apply IH|].
  constructor; [|apply IH].
  rewrite elem_of_drop_duplicates_from, elem_of_cons. tauto.
Qed.

Lemma drop_duplicates_from_NoDup (seen l : list string) :
  NoDup l → (∀ x, x ∈ l → x ∉ seen) → drop_duplicates_from seen l = l.
Proof.
  revert seen. induction l as [|x l IH]; intros seen Hdup Hseen; simpl; [done|].
  apply NoDup_cons in Hdup as [Hx Hdup].
  rewrite bool_decide_eq_false_2 by (apply Hseen; left).
  f_equal. apply IH; [done|]. intros y Hy [->|Hys]%elem_of_cons; [done|].
  by apply (Hseen y); [right|].
Qed.

(** ** [filter_counts_by_interactions] *)

(** The filtered counts have the columns of [counts] and, once each, the
    rows of [counts] whose gene is a side of some interaction; a cell that
    is kept reads as before. *)
Theorem filter_counts_by_interactions_rows counts interactions :
  let filtered := filter_counts_by_interactions counts interactions in
  NoDup (df_index filtered) ∧
  df_columns filtered = df_columns counts ∧
  (∀ gene, gene ∈ df_index filtered ↔
           gene ∈ df_index counts ∧
           (gene ∈ ensembl_1 <$> interactions ∨ gene ∈ ensembl_2 <$> interactions)) ∧
  (∀ gene c, gene ∈ df_index filtered →
             at_get filtered gene c = at_get counts gene c).
Proof.
  cbn zeta. unfold filter_counts_by_interactions, filter_items, interaction_genes.
  cbn [select_rows df_index df_columns].
  assert (Hin : ∀ gene,
    gene ∈ List.filter (λ r, bool_decide (r ∈ df_index counts))
             (drop_duplicates ((ensembl_1 <$> interactions) ++ (ensembl_2 <$> interactions))) ↔
    gene ∈ df_index counts ∧
    (gene ∈ ensembl_1 <$> interactions ∨ gene ∈ ensembl_2 <$> interactions)).
  { intros gene. rewrite elem_of_List_filter, elem_of_drop_duplicates, elem_of_app.
    rewrite bool_decide_eq_true. tauto. }
  split; [|split; [done|split; [done|]]].
  - apply NoDup_List_filter, NoDup_drop_duplicates_from.
  - intros gene c Hg. apply at_get_select_rows; [done|]. by apply Hin in Hg as [? _].
Qed.

(** ** [filter_empty_cluster_counts] *)

(** An empty frame comes back as it is.  Otherwise the rows whose sum is
    positive are kept, in order, with their values, the other rows are
    dropped, and so no row of the result has a sum that is zero or
    negative. *)
Theorem filter_empty_cluster_counts_rows counts :
  let filtered := filter_empty_cluster_counts counts in
  (frame_empty counts = true → filtered = counts) ∧
  (frame_empty counts = false →
     df_index filtered = List.filter (row_sum_positive counts) (df_index counts) ∧
     df_columns filtered = df_columns counts ∧
     (∀ gene c, gene ∈ df_index filtered →
                at_get filtered gene c = at_get counts gene c) ∧
     (∀ gene, gene ∈ df_index filtered → row_sum_positive filtered gene = true)).
Proof.
  cbn zeta. unfold filter_empty_cluster_counts.
  destruct (frame_empty counts); split; try done. intros _.
  cbn [select_rows df_index df_columns].
  split; [done|]. split; [done|]. split.
  - intros gene c Hg. apply at_get_select_rows; [done|].
    by apply elem_of_List_filter in Hg as [? _].
  - intros gene Hg. unfold row_sum_positive at 1.
    rewrite row_values_select_rows by done.
    by apply elem_of_List_filter in Hg as [_ ?].
Qed.

(** ** What [build_clusters] returns *)

Lemma elem_of_cells_of_iff meta cluster_name group_name x :
  x ∈ cells_of meta cluster_name group_name ↔
  ∃ r, r ∈ meta ∧ cell r = x ∧ cell_type r = cluster_name ∧ group r = group_name.
Proof.
  unfold cells_of. rewrite list_elem_of_fmap. split.
  - intros (r & -> & Hr). apply elem_of_List_filter in Hr as [Hr Hb].
    apply andb_true_iff in Hb as [Hc%bool_decide_eq_true Hg%bool_decide_eq_true].
    by exists r.
  - intros (r & Hr & <- & <- & <-). exists r. split; [done|].
    apply elem_of_List_filter. split; [done|].
    by rewrite !bool_decide_eq_true_2.
Qed.

(** The cluster names and the group names that [build_clusters] returns
    are the labels of the two metadata columns, each once. *)
Theorem build_clusters_names log2_pos meta counts clusters :
  build_clusters log2_pos meta counts = Ok clusters →
  NoDup (names clusters) ∧ NoDup (groups clusters) ∧
  (∀ c, c ∈ names clusters ↔ c ∈ cell_type <$> meta) ∧
  (∀ g, g ∈ groups clusters ↔ g ∈ group <$> meta) ∧
  (∀ c, is_Some (means clusters !! c) ↔ c ∈ names clusters).
Proof.
  intros (Hnames & Hgroups & _ & Hmeans & _)%build_clusters_inv.
  rewrite Hnames, Hgroups.
  split; [apply NoDup_drop_duplicates_from|].
  split; [apply NoDup_drop_duplicates_from|].
  split; [apply elem_of_drop_duplicates|].
  split; [apply elem_of_drop_duplicates|].
  intros c. rewrite Hmeans, Hnames.
  destruct (decide (c ∈ drop_duplicates (cell_type <$> meta))) as [Hc|Hc].
  - rewrite bool_decide_eq_true_2 by done. split; [done|by eexists].
  - rewrite bool_decide_eq_false_2 by done. split; [by intros [? ?]|done].
Qed.

(** In the counts that [build_clusters] returns, the frame of a cluster
    and a group has the cells of that cluster and group as its columns,
    and the expression of a cell reads in it as in [counts]. *)
Theorem build_clusters_counts log2_pos meta counts clusters r :
  build_clusters log2_pos meta counts = Ok clusters →
  r ∈ meta →
  ∃ cluster_count,
    counts_of clusters !! (cell_type r, group r) = Some cluster_count ∧
    df_index cluster_count = df_index counts ∧
    (∀ x, x ∈ df_columns cluster_count ↔
          ∃ r', r' ∈ meta ∧ cell r' = x ∧ cell_type r' = cell_type r ∧
                group r' = group r) ∧
    (cell r ∈ df_columns counts →
       ∀ gene, at_get cluster_count gene (cell r) = at_get counts gene (cell r)).
Proof.
  intros (Hnames & Hgroups & _ & _ & Hcounts)%build_clusters_inv Hr.
  exists (counts_entry meta counts (cell_type r, group r)).
  split; [|split; [done|split]].
  - rewrite Hcounts, Hnames, Hgroups. cbn [fst snd].
    rewrite bool_decide_eq_true_2; [done|].
    rewrite !elem_of_drop_duplicates. split; apply list_elem_of_fmap; eauto.
  - intros x. apply elem_of_cells_of_iff.
  - intros Hcol gene. apply at_get_select_columns; [|done].
    apply elem_of_cells_of_iff. by exists r.
Qed.

(** ** [build_clusters_ori] *)

Lemma ori_loop_inv meta counts cluster_names st st' :
  for_each cluster_names (ori_step meta counts) st = Ok st' →
  ∀ c, st'.1 !! c =
         (if bool_decide (c ∈ cluster_names)
          then Some (select_columns counts (cluster_cells meta c)) else st.1 !! c) ∧
       st'.2 !! c =
         (if bool_decide (c ∈ cluster_names)
          then Some (row_means (select_columns counts (cluster_cells meta c)))
          else st.2 !! c).
Proof.
  revert st. induction cluster_names as [|c0 cs IH]; intros st; cbn [for_each].
  { intros [= <-] c. rewrite bool_decide_eq_false_2; [done|apply not_elem_of_nil]. }
  intros (st1 & Hstep & Hrun)%rbind_Ok c. unfold ori_step in Hstep.
  apply rbind_Ok in Hstep as (cc & Hcc%loc_columns_Ok & [= <-]).
  destruct (IH _ Hrun c) as [-> ->]. cbn [fst snd].
  destruct (decide (c = c0)) as [->|Hne].
  - rewrite !lookup_insert_eq, <- Hcc.
    rewrite (bool_decide_eq_true_2 (c0 ∈ c0 :: cs)) by left.
    by destruct (bool_decide (c0 ∈ cs)).
  - rewrite !lookup_insert_ne by done.
    rewrite (bool_decide_ext (c ∈ c0 :: cs) (c ∈ cs)); [done|].
    rewrite elem_of_cons. tauto.
Qed.

Lemma ori_loop_KeyError meta counts cluster_names st e :
  for_each cluster_names (ori_step meta counts) st = Raise e → e = KeyError.
Proof.
  revert st. induction cluster_names as [|c cs IH]; intros st; cbn [for_each]; [done|].
  unfold ori_step at 1.
  destruct (loc_columns counts _) as [cc|e'] eqn:Hcc; cbn [rbind].
  - apply IH.
  - intros [= <-]. by apply loc_columns_KeyError in Hcc.
Qed.

Lemma ori_loop_is_ok meta counts cluster_names st :
  is_ok (for_each cluster_names (ori_step meta counts) st) =
  forallb (λ c, is_ok (loc_columns counts (cluster_cells meta c))) cluster_names.
Proof.
  revert st. induction cluster_names as [|c cs IH]; intros st; cbn [for_each forallb];
    [done|].
  unfold ori_step at 1.
  destruct (loc_columns counts _) as [cc|e'] eqn:Hcc; cbn [rbind is_ok]; [apply IH|done].
Qed.

Lemma elem_of_cluster_cells meta cluster_name x :
  x ∈ cluster_cells meta cluster_name ↔
  ∃ r, r ∈ meta ∧ cell r = x ∧ cell_type r = cluster_name.
Proof.
  unfold cluster_cells. rewrite list_elem_of_fmap. split.
  - intros (r & -> & Hr). apply elem_of_List_filter in Hr as [Hr Hc%bool_decide_eq_true].
    by exists r.
  - intros (r & Hr & <- & <-). exists r. split; [done|].
    apply elem_of_List_filter. split; [done|]. by rewrite bool_decide_eq_true_2.
Qed.

(** [build_clusters_ori] needs no group label: it returns as soon as
    every cluster has one of its cells among the columns of [counts].
    Each cluster is then named once, and its mean is the row mean over
    the cells of the cluster. *)
Theorem build_clusters_ori_returns meta counts :
  (∀ c, c ∈ cell_type <$> meta →
        ∃ r, r ∈ meta ∧ cell_type r = c ∧ cell r ∈ df_columns counts) →
  ∃ clusters, build_clusters_ori meta counts = Ok clusters ∧
    NoDup (names_ori clusters) ∧
    (∀ c, c ∈ names_ori clusters ↔ c ∈ cell_type <$> meta) ∧
    ∀ c, c ∈ names_ori clusters →
      counts_ori clusters !! c = Some (select_columns counts (cluster_cells meta c)) ∧
      means_ori clusters !! c =
      Some (row_means (select_columns counts (cluster_cells meta c))).
Proof.
  intros Hcells. unfold build_clusters_ori.
  destruct (for_each _ _ _) as [st|e] eqn:Hrun.
  - cbn [rbind]. eexists. split; [done|]. cbn.
    split; [apply NoDup_drop_duplicates_from|].
    split; [intros c; apply elem_of_drop_duplicates|].
    intros c Hc. destruct (ori_loop_inv _ _ _ _ _ Hrun c) as [-> ->].
    by rewrite bool_decide_eq_true_2.
  - exfalso. apply (f_equal is_ok) in Hrun. rewrite ori_loop_is_ok in Hrun.
    cbn in Hrun. apply not_true_iff_false in Hrun. apply Hrun.
    apply forallb_forall. intros c Hc.
    apply list_elem_of_In in Hc. apply (proj1 (elem_of_drop_duplicates _ _)) in Hc.
    destruct (Hcells c Hc) as (r & Hr & Hct & Hcol).
    unfold loc_columns.
    destruct (forallb _ (cluster_cells meta c)) eqn:Hall; [|by rewrite andb_false_r].
    exfalso. rewrite forallb_forall in Hall.
    specialize (Hall (cell r)). rewrite bool_decide_eq_true_2 in Hall by done.
    cbn in Hall. assert (false = true); [apply Hall|done].
    apply list_elem_of_In, elem_of_cluster_cells. by exists r.
Qed.

(** [build_clusters_ori] raises [KeyError] when none of the cells of some
    cluster is a column of [counts]. *)
Theorem build_clusters_ori_missing_cluster meta counts r :
  r ∈ meta →
  (∀ r', r' ∈ meta → cell_type r' = cell_type r → cell r' ∉ df_columns counts) →
  build_clusters_ori meta counts = Raise KeyError.
Proof.
  intros Hr Hnone. unfold build_clusters_ori.
  destruct (for_each _ _ _) as [st|e] eqn:Hrun; cbn [rbind].
  - exfalso. apply (f_equal is_ok) in Hrun. rewrite ori_loop_is_ok in Hrun.
    cbn in Hrun. rewrite forallb_forall in Hrun.
    specialize (Hrun (cell_type r)). unfold loc_columns in Hrun.
    assert (Hcl : cell r ∈ cluster_cells meta (cell_type r)).
    { apply elem_of_cluster_cells. by exists r. }
    rewrite bool_decide_eq_false_2 in Hrun by (intros E; rewrite E in Hcl;
      by apply elem_of_nil in Hcl).
    assert (Hall : forallb (λ c, negb (bool_decide (c ∈ df_columns counts)))
                     (cluster_cells meta (cell_type r)) = true).
    { apply forallb_forall. intros x Hx.
      apply list_elem_of_In in Hx. apply (proj1 (elem_of_cluster_cells _ _ _)) in Hx.
      destruct Hx as (r' & Hr' & <- & Hct).
      rewrite bool_decide_eq_false_2; [done|]. by apply Hnone. }
    rewrite Hall in Hrun. cbn in Hrun.
    assert (false = true); [apply Hrun|done].
    apply list_elem_of_In, elem_of_drop_duplicates, list_elem_of_fmap. eauto.
  - by apply ori_loop_KeyError in Hrun as ->.
Qed.

(** ** One permutation *)

Section TrialFacts.
Variable rng : Type.
Variable rk_interval : nat → rng → nat * rng.
Variable log2_pos : Q → Q.
(** [rk_interval max] draws from [0 .. max]. *)
Hypothesis rk_interval_bound : ∀ max g, ((rk_interval max g).1 ≤ max)%nat.

Lemma shuffle_meta_copy (w : world rng) (meta : nat) (m : Meta) :
  frames w !! meta = Some m →
  ∃ meta_copy w' m',
    shuffle_meta rng rk_interval meta w = Some (meta_copy, w') ∧
    frames w' !! meta = Some m ∧
    frames w' !! meta_copy = Some m' ∧
    cell_type <$> m' ≡ₚ cell_type <$> m ∧
    group <$> m' = group <$> m ∧
    cell <$> m' = cell <$> m.
Proof.
  intros Hm. unfold shuffle_meta, alloc. rewrite Hm. simpl.
  set (l := fresh (dom (frames w))).
  assert (Hl : frames w !! l = None) by apply not_elem_of_dom, is_fresh.
  destruct (np_random_shuffle_Permutation rng rk_interval rk_interval_bound
              (cell_type <$> m) (random_state w)) as (column & g & -> & Hperm).
  simpl. assert (Hne : l ≠ meta) by congruence.
  destruct (with_cell_types_columns m column) as (Hct & Hg & Hc).
  { rewrite (Permutation_length Hperm). by rewrite length_fmap. }
  eexists l, _, (with_cell_types m column). split; [done|]. simpl.
  split; [by rewrite lookup_alter_ne, lookup_insert_ne|].
  split; [by rewrite lookup_alter_eq, lookup_insert_eq|].
  split; [by rewrite Hct|]. done.
Qed.

(** A permutation trial returns a table whenever the real run could: the
    cells of the metadata are columns of [counts], both group labels are
    there, the genes of the interactions are rows of [counts] and the
    clusters of the pairs are clusters of the metadata.  The caller's
    metadata is the same object afterwards. *)
Theorem statistical_analysis_trial_returns
    base cis counts interactions meta (w : world rng) (m : Meta) :
  frames w !! meta = Some m →
  Forall (λ r, cell r ∈ df_columns counts) m →
  "tumor"%string ∈ group <$> m → "normal"%string ∈ group <$> m →
  Forall (λ interaction, ensembl_1 interaction ∈ df_index counts ∧
                         ensembl_2 interaction ∈ df_index counts) interactions →
  Forall (λ ci : string * string,
            ci.1 ∈ cell_type <$> m ∧ ci.2 ∈ cell_type <$> m) cis →
  ∃ res w',
    _statistical_analysis rng rk_interval log2_pos base cis counts interactions meta w
    = Some (Ok res, w') ∧
    frames w' !! meta = Some m.
Proof.
  intros Hm Hcells Ht Hn Hgenes Hpairs.
  rewrite Forall_forall in Hcells. rewrite Forall_forall in Hgenes.
  rewrite Forall_forall in Hpairs.
  destruct (shuffle_meta_copy w meta m Hm)
    as (copy & w' & m' & Hrun & Hold & Hnew & Hperm & Hgroup & Hcell).
  unfold _statistical_analysis. rewrite Hrun. simpl. rewrite Hnew. simpl.
  destruct (build_clusters_total log2_pos m' counts) as [cl Hcl].
  { intros r Hr. assert (Hin : cell r ∈ cell <$> m') by (apply list_elem_of_fmap; eauto).
    rewrite Hcell in Hin. apply list_elem_of_fmap in Hin as (r0 & -> & Hr0).
    by apply Hcells. }
  { by rewrite Hgroup. }
  { by rewrite Hgroup. }
  rewrite Hcl. cbn [rbind].
  apply build_clusters_inv in Hcl as (Hnames & _ & _ & Hmeans & _).
  destruct (mean_analysis interactions (means cl) cis base) as [res|e] eqn:Hres.
  { by exists res, w'. }
  exfalso. apply (f_equal is_ok) in Hres. rewrite mean_analysis_flat in Hres.
  rewrite (proj1 (mean_loop_is_ok _ _ _)) in Hres. cbn in Hres.
  apply not_true_iff_false in Hres. apply Hres.
  apply forallb_forall. intros [interaction ci] Hin.
  apply list_elem_of_In, elem_of_all_cells in Hin as [Hi Hc].
  destruct (Hgenes _ Hi) as [Hg1 Hg2]. destruct (Hpairs _ Hc) as [Hc1 Hc2].
  cbn [fst snd].
  assert (Hlook : ∀ c, c ∈ cell_type <$> m →
            means cl !! c = Some (de_entry log2_pos m' counts c)).
  { intros c Hc'. rewrite Hmeans, Hnames. rewrite bool_decide_eq_true_2; [done|].
    apply elem_of_drop_duplicates. by rewrite Hperm. }
  by rewrite (cluster_interaction_mean_Ok ci interaction (means cl) _ _ _ _
                (Hlook _ Hc1) (Hlook _ Hc2)
                (de_entry_lookup _ _ _ _ _ Hg1) (de_entry_lookup _ _ _ _ _ Hg2)).
Qed.
End TrialFacts.

(** ** [build_significant_means] *)








(** ** The further theorems at concrete inputs *)

Lemma get_cluster_combinations_sorted_witness :
  [("c1", "c1"); ("c1", "c2"); ("c2", "c1"); ("c2", "c2")]%string
  = get_cluster_combinations ["c2"; "c1"]%string.
Proof.
  apply (proj2 (get_cluster_combinations_sorted ["c2"; "c1"]%string)).
  - apply (bool_decide_unpack _). vm_compute. exact I.
  - apply (bool_decide_unpack _). vm_compute. exact I.
Defined.

Lemma cluster_interaction_string_injective_witness :
  ("c1", "c2_b")%string = ("c1", "c2_b")%string.
Proof.
  apply (proj1 cluster_interaction_string_injective); reflexivity.
Defined.

Lemma result_cells_have_distinct_keys_witness :
  NoDup (cell_key <$> all_cells ex_interactions
                        (get_cluster_combinations ["A"; "B"]%string)).
Proof.
  apply result_cells_have_distinct_keys.
  - apply (bool_decide_unpack _). vm_compute. exact I.
  - apply (bool_decide_unpack _). vm_compute. exact I.
  - reflexivity.
Defined.


Lemma result_tables_keep_the_template_witness :
  ∃ res, mean_analysis ex_interactions ex_means ex_pairs
           (build_result_matrix ex_interactions ex_pairs) = Ok res ∧
         df_index res = [1; 2]%nat ∧ df_columns res = ex_columns.
Proof.
  destruct (mean_analysis ex_interactions ex_means ex_pairs
              (build_result_matrix ex_interactions ex_pairs)) as [res|e] eqn:E.
  - exists res. split; [reflexivity|].
    exact (proj1 (result_tables_keep_the_template ex_interactions ex_pairs)
             ex_means res E).
  - exfalso. apply (f_equal is_ok) in E. vm_compute in E. discriminate E.
Defined.

Lemma build_percent_result_range_witness :
  ∃ p, (do pvalues <- build_percent_result ex_real_mean ex_real_percents ex_shuffled
                         ex_interactions ex_pairs ex_unfilled;
        at_get pvalues 1%nat "cluster1_cluster1") = Ok p ∧
       fle (Fin 0) p = true ∧ fle p (Fin 2) = true.
Proof.
  destruct (build_percent_result ex_real_mean ex_real_percents ex_shuffled
              ex_interactions ex_pairs ex_unfilled) as [pvalues|e] eqn:E.
  - destruct (build_percent_result_range _ _ _ _ _ _ _ E
                (mkInteraction 1 "g1" "g2") ("cluster1", "cluster1")%string)
      as (p & Hp & Hrange).
    + left.
    + left.
    + exists p. split; [exact Hp|exact Hrange].
  - exfalso. apply (f_equal is_ok) in E. vm_compute in E. discriminate E.
Defined.

Lemma pvalue_monotone_in_negative_real_mean_witness :
  match result_percent_at ex_more_negative_real_mean ex_all_ones ex_signed_shuffled
          None 1%nat "cluster1_cluster1",
        result_percent_at ex_negative_real_mean ex_all_ones ex_signed_shuffled
          None 1%nat "cluster1_cluster1" with
  | Ok (Some p1), Ok (Some p2) => fle p1 p2 = true
  | Raise e1, Raise e2 => e1 = e2
  | _, _ => False
  end.
Proof.
  apply (pvalue_monotone_in_negative_real_mean
           ex_more_negative_real_mean ex_negative_real_mean ex_all_ones
           ex_signed_shuffled None 1%nat "cluster1_cluster1"%string
           (Fin (-1 # 2)) (Fin (-1 # 4))).
  - vm_compute. reflexivity.
  - vm_compute. reflexivity.
  - reflexivity.
  - reflexivity.
Defined.

Lemma build_percent_result_bad_flag_witness :
  build_percent_result ex_real_mean ex_unfilled ex_shuffled ex_interactions ex_pairs
    ex_unfilled = Raise ValueError.
Proof.
  refine (proj1 (build_percent_result_bad_flag ex_real_mean ex_unfilled ex_shuffled
                   (mkInteraction 1 "g1" "g2") [mkInteraction 2 "g2" "g3"]
                   ("cluster1", "cluster1")%string [("cluster1", "cluster2")%string]
                   ex_unfilled (Fin (1 # 2)) NaN _ _) _).
  - vm_compute. reflexivity.
  - vm_compute. reflexivity.
  - reflexivity.
Defined.

Lemma get_significant_means_missing_row_witness :
  get_significant_means ex_real_mean ex_short_pvalues = Raise KeyError.
Proof.
  apply (get_significant_means_missing_row ex_real_mean ex_short_pvalues 2%nat).
  - right. left.
  - apply (bool_decide_eq_false_1 _). vm_compute. reflexivity.
  - discriminate.
Defined.

Lemma counts_percent_series_witness :
  counts_percent [Fin 0; Fin 0; Fin (1 # 2)] (Fin (1 # 2)) = Ok 1.
Proof.
  destruct (proj2 (counts_percent_series [Fin 0; Fin 0; Fin (1 # 2)]))
    as (_ & Hiff & _).
  - discriminate.
  - apply Hiff. vm_compute. reflexivity.
Defined.

Lemma percent_analysis_flags_witness :
  ∃ res, percent_analysis ex_clusters (Fin (1 # 10)) [mkInteraction 1 "g1" "g2"]
           [("A", "A")%string]
           (build_result_matrix [mkInteraction 1 "g1" "g2"] [("A", "A")%string]) = Ok res ∧
         (at_get res 1%nat "A_A" = Ok (Fin 0) ∨ at_get res 1%nat "A_A" = Ok (Fin 1)).
Proof.
  destruct (percent_analysis ex_clusters (Fin (1 # 10)) [mkInteraction 1 "g1" "g2"]
              [("A", "A")%string]
              (build_result_matrix [mkInteraction 1 "g1" "g2"] [("A", "A")%string]))
    as [res|e] eqn:E.
  - exists res. split; [reflexivity|].
    apply (percent_analysis_flags _ _ _ _ _ _ E
             (mkInteraction 1 "g1" "g2") ("A", "A")%string); left.
  - exfalso. apply (f_equal is_ok) in E. vm_compute in E. discriminate E.
Defined.

Lemma filter_counts_by_interactions_rows_witness :
  at_get (filter_counts_by_interactions ex_wide_counts ex_interactions) "g3" "cell2"
  = at_get ex_wide_counts "g3" "cell2".
Proof.
  apply (filter_counts_by_interactions_rows ex_wide_counts ex_interactions).
  apply (bool_decide_unpack _). vm_compute. exact I.
Defined.

Lemma filter_empty_cluster_counts_rows_witness :
  df_index (filter_empty_cluster_counts ex_wide_counts) = ["g1"; "g2"; "g9"]%string.
Proof.
  destruct (proj2 (filter_empty_cluster_counts_rows ex_wide_counts)) as (-> & _).
  - reflexivity.
  - vm_compute. reflexivity.
Defined.

Lemma build_clusters_names_witness :
  ∃ clusters, build_clusters log2_approx ex_meta ex_counts = Ok clusters ∧
              NoDup (names clusters) ∧ NoDup (groups clusters).
Proof.
  destruct (build_clusters log2_approx ex_meta ex_counts) as [clusters|e] eqn:E.
  - exists clusters. split; [reflexivity|].
    destruct (build_clusters_names _ _ _ _ E) as (Hn & Hg & _). by split.
  - exfalso. apply (f_equal is_ok) in E. vm_compute in E. discriminate E.
Defined.

Lemma build_clusters_counts_witness :
  ∃ clusters cluster_count,
    build_clusters log2_approx ex_meta ex_counts = Ok clusters ∧
    counts_of clusters !! ("B", "tumor")%string = Some cluster_count ∧
    at_get cluster_count "g1" "cell3" = at_get ex_counts "g1" "cell3".
Proof.
  destruct (build_clusters log2_approx ex_meta ex_counts) as [clusters|e] eqn:E.
  - destruct (build_clusters_counts _ _ _ _ (mkMeta "cell3" "B" "tumor") E)
      as (cluster_count & Hentry & _ & _ & Hread).
    + right. right. left.
    + exists clusters, cluster_count. split; [reflexivity|]. split; [exact Hentry|].
      apply Hread. apply (bool_decide_unpack _). vm_compute. exact I.
  - exfalso. apply (f_equal is_ok) in E. vm_compute in E. discriminate E.
Defined.

Lemma build_clusters_ori_returns_witness :
  ∃ clusters, build_clusters_ori ex_meta_case_control ex_counts = Ok clusters.
Proof.
  destruct (build_clusters_ori_returns ex_meta_case_control ex_counts)
    as (clusters & Hrun & _).
  - intros c Hc. apply list_elem_of_fmap in Hc as (r & -> & Hr). exists r.
    split; [exact Hr|]. split; [reflexivity|].
    revert r Hr. apply Forall_forall. apply (bool_decide_unpack _).
    vm_compute. exact I.
  - exists clusters. exact Hrun.
Defined.

Lemma build_clusters_ori_missing_cluster_witness :
  build_clusters_ori ex_meta ex_partial_counts = Raise KeyError.
Proof.
  apply (build_clusters_ori_missing_cluster ex_meta ex_partial_counts
           (mkMeta "cell3" "B" "tumor")).
  - right. right. left.
  - apply (Forall_forall (λ r', cell_type r' = "B"%string →
                                cell r' ∉ df_columns ex_partial_counts)).
    apply (bool_decide_unpack _). vm_compute. exact I.
Defined.

Lemma statistical_analysis_trial_returns_witness :
  ∃ res w',
    _statistical_analysis N lcg_interval log2_approx
      (build_result_matrix ex_interactions ex_cluster_pairs) ex_cluster_pairs
      ex_full_counts ex_interactions 0%nat (mkWorld {[0%nat := ex_full_meta]} 2024%N)
    = Some (Ok res, w') ∧
    frames w' !! 0%nat = Some ex_full_meta.
Proof.
  apply (statistical_analysis_trial_returns N lcg_interval log2_approx
           lcg_interval_bound).
  - reflexivity.
  - apply (bool_decide_unpack _). vm_compute. exact I.
  - apply (bool_decide_unpack _). vm_compute. exact I.
  - apply (bool_decide_unpack _). vm_compute. exact I.
  - apply (bool_decide_unpack _). vm_compute. exact I.
  - apply (bool_decide_unpack _). vm_compute. exact I.
Defined.

